(** * go-smtpd: the per-connection protocol engine of [smtpd.go]

    A shallow embedding of the command-line lexer ([cmdLine]), the mail
    address value ([addrString]), the default envelope ([BasicEnvelope])
    and the session state machine ([session.serve] and its handlers),
    followed by the properties of the specification that concern them.

    Modelling conventions.
    - A Go [string] is a sequence of bytes: [String.string], one [ascii]
      per byte.  Indices and lengths are Go [int]s, written in [Z]; the
      length of a string always fits an [int], so no wrap-around occurs.
    - A run-time panic (slice bounds, index out of range) is a result of
      its own, [Panic], never a default value.
    - The caller's code (the hooks of [Server], the methods of an
      [Envelope]) runs on a state of its own, the [World], passed
      explicitly; an [os.Error] is represented by its message.
    - [log.Printf] writes to the process log only and is left out. *)

From Stdlib Require Import String Ascii List ZArith Lia Bool.
Import ListNotations.
Local Open Scope string_scope.
Local Open Scope Z_scope.

(** ** Results of Go code that may panic *)

Inductive runtimeError : Type :=
| SliceBoundsOutOfRange
| IndexOutOfRange.

Inductive go (A : Type) : Type :=
| Ok (a : A)
| Panic (e : runtimeError).
Arguments Ok {A} a.
Arguments Panic {A} e.

Definition go_bind {A B : Type} (x : go A) (k : A -> go B) : go B :=
  match x with
  | Ok a => k a
  | Panic e => Panic e
  end.

Notation "x <-! e ; k" := (go_bind e (fun x => k))
  (at level 61, e at next level, right associativity).

(** ** Bytes and the [strings] package *)

Definition CR : ascii := "013"%char.
Definition LF : ascii := "010"%char.
Definition CRLF : string := String CR (String LF EmptyString).

Definition len (s : string) : Z := Z.of_nat (String.length s).

(** [s[lo:hi]]: panics unless [0 <= lo <= hi <= len(s)]. *)
Definition slice (s : string) (lo hi : Z) : go string :=
  if (0 <=? lo) && (lo <=? hi) && (hi <=? len s)
  then Ok (substring (Z.to_nat lo) (Z.to_nat (hi - lo)) s)
  else Panic SliceBoundsOutOfRange.

Definition byteval (c : ascii) : Z := Z.of_nat (nat_of_ascii c).

Definition has_byte (c : ascii) (s : string) : bool :=
  existsb (Ascii.eqb c) (list_ascii_of_string s).

Fixpoint mapBytes (f : ascii -> ascii) (s : string) : string :=
  match s with
  | EmptyString => EmptyString
  | String c s' => String (f c) (mapBytes f s')
  end.

Fixpoint reverseOnto (s acc : string) : string :=
  match s with
  | EmptyString => acc
  | String c s' => reverseOnto s' (String c acc)
  end.

Definition reverse (s : string) : string := reverseOnto s EmptyString.

Definition allBytes (f : ascii -> bool) (s : string) : bool :=
  forallb f (list_ascii_of_string s).

Definition isASCII (s : string) : bool :=
  allBytes (fun c => byteval c <? 128) s.

Definition upperByte (c : ascii) : ascii :=
  if (97 <=? byteval c) && (byteval c <=? 122)
  then ascii_of_nat (nat_of_ascii c - 32) else c.

Definition lowerByte (c : ascii) : ascii :=
  if (65 <=? byteval c) && (byteval c <=? 90)
  then ascii_of_nat (nat_of_ascii c + 32) else c.

Definition isLowerByte (c : ascii) : bool :=
  (97 <=? byteval c) && (byteval c <=? 122).

(** [unicode.IsSpace] on a rune below 0x80: tab, LF, VT, FF, CR, space. *)
Definition isSpaceByte (c : ascii) : bool :=
  ((9 <=? byteval c) && (byteval c <=? 13)) || (byteval c =? 32).

(** What the program takes from outside the repository: the behaviour of
    the Go library on text that is not plain ASCII (it depends on the
    UTF-8 decoder and the Unicode tables of the Go release), and the
    machine's host name.  On ASCII text the library's results are fixed
    and written out below. *)
Class Platform : Type := {
  (** [strings.ToUpper] on a string holding a byte >= 0x80 *)
  unicode_ToUpper : string -> string;
  (** [strings.ToLower] on a string holding a byte >= 0x80 *)
  unicode_ToLower : string -> string;
  (** [strings.TrimRightFunc(s, unicode.IsSpace)] on a string whose last
      byte is >= 0x80 *)
  unicode_TrimRightSpace : string -> string;
  (** what [hostname()] falls back to: the trimmed output of the
      [hostname] command, or the empty string when the command fails *)
  system_hostname : string
}.

Module strings.

Definition HasSuffix (s suffix : string) : bool :=
  (len suffix <=? len s) &&
  String.eqb
    (substring (String.length s - String.length suffix)
               (String.length suffix) s)
    suffix.

(** Index of the first instance of [substr] in [s], or -1. *)
Fixpoint Index (s substr : string) : Z :=
  if prefix substr s then 0
  else match s with
       | EmptyString => -1
       | String _ s' =>
           let i := Index s' substr in
           if i <? 0 then -1 else i + 1
       end.

Section WithPlatform.
Context {P : Platform}.

Definition ToUpper (s : string) : string :=
  if isASCII s then mapBytes upperByte s else unicode_ToUpper s.

Definition ToLower (s : string) : string :=
  if isASCII s then mapBytes lowerByte s else unicode_ToLower s.

(** The scan of [TrimRightFunc] from the last byte leftwards; [r] holds the
    bytes still to examine, last byte first. *)
Fixpoint trimRightScan (r : string) : string :=
  match r with
  | EmptyString => EmptyString
  | String c r' =>
      if 128 <=? byteval c then unicode_TrimRightSpace (reverse r)
      else if isSpaceByte c then trimRightScan r'
      else reverse r
  end.

(** [strings.TrimRightFunc(s, unicode.IsSpace)] *)
Definition TrimRightSpace (s : string) : string := trimRightScan (reverse s).

End WithPlatform.
End strings.

(** ** Command Line and Mail Address *)

(** An [os.Error], by its message. *)
Definition error : Type := string.

Definition cmdLine : Type := string.
Definition addrString : Type := string.

(** The interface [MailAddress]: the program only ever builds its values
    by [addrString(...)]. *)
Definition MailAddress : Type := addrString.

Definition in_strings (s : string) (l : list string) : bool :=
  existsb (String.eqb s) l.

Module CmdLine.
Section WithPlatform.
Context {P : Platform}.

Definition Verb (cl : cmdLine) : go string :=
  let s := cl in
  let idx := strings.Index s " " in
  if negb (idx =? -1) then
    t <-! slice s 0 idx ; Ok (strings.ToUpper t)
  else
    t <-! slice s 0 (len s - 2) ; Ok (strings.ToUpper t).

Definition Arg (cl : cmdLine) : go string :=
  let s := cl in
  let idx := strings.Index s " " in
  if negb (idx =? -1) then
    t <-! slice s (idx + 1) (len s - 2) ; Ok (strings.TrimRightSpace t)
  else Ok EmptyString.

(** [nil] is [None]; the first message is a raw string in the source, its
    backslashes are literal. *)
Definition checkValid (cl : cmdLine) : go (option error) :=
  if negb (strings.HasSuffix cl CRLF) then
    Ok (Some "line doesn't end in \r\n")
  else
    v <-! Verb cl ;
    if in_strings v ["RSET"; "DATA"; "QUIT"] then
      a <-! Arg cl ;
      if negb (String.eqb a EmptyString) then Ok (Some "unexpected argument")
      else Ok None
    else Ok None.

End WithPlatform.
End CmdLine.

Module AddrString.
Section WithPlatform.
Context {P : Platform}.

Definition Email (a : addrString) : string := a.

Definition Hostname (a : addrString) : go string :=
  let e := a in
  let idx := strings.Index e "@" in
  if negb (idx =? -1) then
    t <-! slice e (idx + 1) (len e) ; Ok (strings.ToLower t)
  else Ok EmptyString.

End WithPlatform.
End AddrString.

(** ** The address patterns

    [rcptToRE] is [(?i)^to:\s*<(.+?)>] and [mailFromRE] is
    [(?i)^from:\s*<(.*?)>]: a keyword matched without regard to case at
    the start of the text, any run of [\s] (tab, LF, FF, CR, space), a
    [<], a lazy group that does not cross a newline, and the first [>]
    that ends it.  The group of [rcptToRE] takes at least one character,
    which may itself be a [>].  The delimiters are ASCII, so the match is
    the same whether the text is read as bytes or as UTF-8. *)

Record Regexp : Type := {
  keyword : string;        (* in lower case *)
  groupMayBeEmpty : bool   (* [.*?] rather than [.+?] *)
}.

Definition rcptToRE : Regexp :=
  {| keyword := "to:"; groupMayBeEmpty := false |}.
Definition mailFromRE : Regexp :=
  {| keyword := "from:"; groupMayBeEmpty := true |}.

Definition isReSpace (c : ascii) : bool :=
  existsb (Z.eqb (byteval c)) [9; 10; 12; 13; 32].

Fixpoint matchKeyword (kw s : string) : option string :=
  match kw with
  | EmptyString => Some s
  | String k kw' =>
      match s with
      | EmptyString => None
      | String c s' =>
          if Ascii.eqb (lowerByte c) k then matchKeyword kw' s' else None
      end
  end.

Fixpoint skipSpaces (s : string) : string :=
  match s with
  | EmptyString => EmptyString
  | String c s' => if isReSpace c then skipSpaces s' else s
  end.

(** The lazy group and the [>] closing it: the group and the text left
    after the [>]. *)
Fixpoint lazyUpToGt (s : string) : option (string * string) :=
  match s with
  | EmptyString => None
  | String c s' =>
      if Ascii.eqb c ">" then Some (EmptyString, s')
      else if Ascii.eqb c LF then None
      else match lazyUpToGt s' with
           | Some (g, rest) => Some (String c g, rest)
           | None => None
           end
  end.

Definition matchGroup (mayBeEmpty : bool) (s : string)
  : option (string * string) :=
  if mayBeEmpty then lazyUpToGt s
  else match s with
       | EmptyString => None
       | String c s' =>
           if Ascii.eqb c LF then None
           else match lazyUpToGt s' with
                | Some (g, rest) => Some (String c g, rest)
                | None => None
                end
       end.

(** [re.FindStringSubmatch(s)]: the whole match and the group, or [nil]. *)
Definition FindStringSubmatch (re : Regexp) (s : string) : list string :=
  match matchKeyword (keyword re) s with
  | None => []
  | Some s1 =>
      match skipSpaces s1 with
      | String "<" s2 =>
          match matchGroup (groupMayBeEmpty re) s2 with
          | Some (g, rest) =>
              [substring 0 (String.length s - String.length rest) s; g]
          | None => []
          end
      | _ => []
      end
  end.

(** [m[i]] on a slice of strings. *)
Definition index (m : list string) (i : nat) : go string :=
  match nth_error m i with
  | Some x => Ok x
  | None => Panic IndexOutOfRange
  end.

(** ** Server, Envelope and Session *)

Definition netAddr : Type := string.

Record BasicEnvelope : Type := { rcpts : list MailAddress }.

Module BasicEnvelopeMethods.
Definition AddRecipient (e : BasicEnvelope) (rcpt : MailAddress)
  : BasicEnvelope * option error :=
  ({| rcpts := (rcpts e ++ [rcpt])%list |}, None).
End BasicEnvelopeMethods.

Inductive loopControl : Type := Continue | Return.

Section Session.
Context {P : Platform}.

(** The state of the embedding application, envelopes included. *)
Variable World : Type.
(** The non-nil values of the interface [Envelope]; [nil] is [None]. *)
Variable Envelope : Type.
(** Method [AddRecipient] of the value's implementation. *)
Variable AddRecipient :
  Envelope -> MailAddress -> World -> option error * World.

(** The hooks see the session as a [Connection], that is, its [Addr()]. *)
Record Server : Type := {
  Addr : string;
  Hostname : string;
  ReadTimeout : Z;
  WriteTimeout : Z;
  OnNewConnection : option (netAddr -> World -> option error * World);
  OnNewMail :
    option (netAddr -> MailAddress -> World ->
            (option Envelope * option error) * World)
}.

Definition hostname (srv : Server) : string :=
  if negb (String.eqb (Hostname srv) EmptyString) then Hostname srv
  else system_hostname.

(** The fields [rwc], [br] and [bw] of the Go struct are the connection:
    its remote address is [remote], the bytes read are the argument of
    [serve], and the bytes written are the [wire] of the [state]. *)
Record session : Type := {
  srv : Server;
  remote : netAddr;
  env : option Envelope;
  helloType : string;
  helloHost : string
}.

Definition newSession (srv : Server) (rwc : netAddr) : session :=
  {| srv := srv; remote := rwc; env := None;
     helloType := EmptyString; helloHost := EmptyString |}.

(** A session at work: its fields, the caller's world, and every byte
    handed to the connection so far.  [bufio] only delays bytes until the
    [Flush] that ends each response, so a write is an append to [wire]. *)
Record state : Type := {
  sess : session;
  world : World;
  wire : string
}.

Definition M (A : Type) : Type := state -> go A * state.

Definition ret {A : Type} (a : A) : M A := fun st => (Ok a, st).

Definition bind {A B : Type} (m : M A) (k : A -> M B) : M B :=
  fun st =>
    match m st with
    | (Ok a, st') => k a st'
    | (Panic e, st') => (Panic e, st')
    end.

Definition lift {A : Type} (x : go A) : M A := fun st => (x, st).

Definition getSession : M session := fun st => (Ok (sess st), st).

Definition setSession (s : session) : M unit :=
  fun st => (Ok tt, {| sess := s; world := world st; wire := wire st |}).

(** A call into the caller's code. *)
Definition call {A : Type} (f : World -> A * World) : M A :=
  fun st =>
    let (a, w) := f (world st) in
    (Ok a, {| sess := sess st; world := w; wire := wire st |}).

Definition Fprintf (text : string) : M unit :=
  fun st =>
    (Ok tt, {| sess := sess st; world := world st;
               wire := wire st ++ text |}).

Definition Flush : M unit := ret tt.

Notation "x <- e ;; k" := (bind e (fun x => k))
  (at level 61, e at next level, right associativity).
Notation "e ;; k" := (bind e (fun _ => k))
  (at level 61, right associativity).

Fixpoint forEach {A : Type} (l : list A) (body : A -> M unit) : M unit :=
  match l with
  | [] => ret tt
  | x :: l' => body x ;; forEach l' body
  end.

Definition setEnv (e : option Envelope) : M unit :=
  s <- getSession ;;
  setSession {| srv := srv s; remote := remote s; env := e;
                helloType := helloType s; helloHost := helloHost s |}.

Definition setHelloType (greeting : string) : M unit :=
  s <- getSession ;;
  setSession {| srv := srv s; remote := remote s; env := env s;
                helloType := greeting; helloHost := helloHost s |}.

Definition setHelloHost (host : string) : M unit :=
  s <- getSession ;;
  setSession {| srv := srv s; remote := remote s; env := env s;
                helloType := helloType s; helloHost := host |}.

(** [sendf] and [sendlinef] with the format already expanded: every
    format of the program only splices strings ([%s]) and error messages
    ([%v]) into fixed text. *)
Definition sendf (text : string) : M unit := Fprintf text ;; Flush.

Definition sendlinef (text : string) : M unit := sendf (text ++ CRLF).

Definition handleHello (greeting host : string) : M unit :=
  setHelloType greeting ;;
  setHelloHost host ;;
  s <- getSession ;;
  Fprintf ("250-" ++ hostname (srv s) ++ CRLF) ;;
  forEach
    [ "250-PIPELINING";
      "250-SIZE 10240000";
      "250-ENHANCEDSTATUSCODES";
      "250-8BITMIME";
      "250 DSN" ]
    (fun ext => Fprintf (ext ++ CRLF)) ;;
  Flush.

Definition handleMailFrom (email : string) : M unit :=
  s <- getSession ;;
  match env s with
  | Some _ => sendlinef "503 5.5.1 Error: nested MAIL command"
  | None =>
      match OnNewMail (srv s) with
      | None => sendf ("451 Server.OnNewMail not configured" ++ CRLF)
      | Some cb =>
          setEnv None ;;
          r <- call (cb (remote s) email) ;;
          match r with
          | (_, Some _) => ret tt
          | (e, None) => setEnv e ;; sendlinef "250 2.1.0 Ok"
          end
      end
  end.

(** After the 501 the source does not return: it goes on to [m[1]]. *)
Definition handleRcpt (line : cmdLine) : M unit :=
  s <- getSession ;;
  match env s with
  | None => sendlinef "503 5.5.1 Error: need MAIL command"
  | Some e =>
      arg <- lift (CmdLine.Arg line) ;;
      let m := FindStringSubmatch rcptToRE arg in
      (match m with
       | [] => sendlinef "501 5.1.7 Bad sender address syntax"
       | _ => ret tt
       end) ;;
      rcpt <- lift (index m 1) ;;
      err <- call (AddRecipient e rcpt) ;;
      match err with
      | Some msg => sendlinef ("550 bad recipient: " ++ msg)
      | None => sendlinef "250 2.1.0 Ok"
      end
  end.

(** One turn of the loop of [serve] on a line already read. *)
Definition serveLine (line : cmdLine) : M loopControl :=
  invalid <- lift (CmdLine.checkValid line) ;;
  match invalid with
  | Some msg => sendlinef ("500 " ++ msg) ;; ret Continue
  | None =>
      verb <- lift (CmdLine.Verb line) ;;
      if in_strings verb ["HELO"; "EHLO"] then
        greeting <- lift (CmdLine.Verb line) ;;
        host <- lift (CmdLine.Arg line) ;;
        handleHello greeting host ;; ret Continue
      else if String.eqb verb "QUIT" then
        sendlinef "221 2.0.0 Bye" ;; ret Return
      else if String.eqb verb "RSET" then
        setEnv None ;; sendlinef "250 2.0.0 OK" ;; ret Continue
      else if String.eqb verb "NOOP" then
        sendlinef "250 2.0.0 OK" ;; ret Continue
      else if String.eqb verb "MAIL" then
        arg <- lift (CmdLine.Arg line) ;;
        match FindStringSubmatch mailFromRE arg with
        | [] => sendlinef "501 5.1.7 Bad sender address syntax" ;;
                ret Continue
        | m => email <- lift (index m 1) ;;
               handleMailFrom email ;; ret Continue
        end
      else if String.eqb verb "RCPT" then
        handleRcpt line ;; ret Continue
      else if String.eqb verb "DATA" then
        sendlinef "354 Go ahead" ;; ret Continue
      else
        sendlinef "502 5.5.2 Error: command not recognized" ;;
        ret Continue
  end.

(** [bufio.Reader.ReadSlice('\n')] over everything the client sends: the
    successive lines, each with its LF.  The list ends where the read
    fails: at the end of the input (bytes after the last LF are dropped
    with the error), or at a line that does not fit the reader's buffer. *)
Definition bufSize : Z := 4096.

Fixpoint readLines (pending input : string) : list cmdLine :=
  match input with
  | EmptyString => []
  | String c rest =>
      let line := pending ++ String c EmptyString in
      if len line >? bufSize then []
      else if Ascii.eqb c LF then line :: readLines EmptyString rest
      else readLines line rest
  end.

Fixpoint serveLoop (lines : list cmdLine) : M unit :=
  match lines with
  | [] => ret tt
  | line :: rest =>
      ctl <- serveLine line ;;
      match ctl with
      | Continue => serveLoop rest
      | Return => ret tt
      end
  end.

(** [serve]: the result [Ok tt] is the return that closes the connection;
    [Panic] is a panic that leaves the goroutine. *)
Definition serve (input : string) : M unit :=
  s <- getSession ;;
  rejected <-
    match OnNewConnection (srv s) with
    | Some onc =>
        err <- call (onc (remote s)) ;;
        ret (match err with Some _ => true | None => false end)
    | None => ret false
    end ;;
  if (rejected : bool) then ret tt
  else
    sendf ("220 " ++ hostname (srv s) ++ " ESMTP gosmtpd" ++ CRLF) ;;
    serveLoop (readLines EmptyString input).

(** The states a session of server [srv0] can be in between two commands:
    it starts from [newSession] (the caller's world and the bytes already
    written are arbitrary: the connection hook and the banner come first),
    every completed turn of the loop leads to a next one, and the caller's
    code elsewhere may change its world at any time. *)
Inductive reachable (srv0 : Server) : state -> Prop :=
| reach_new (rwc : netAddr) (w : World) (out : string) :
    reachable srv0
      {| sess := newSession srv0 rwc; world := w; wire := out |}
| reach_turn (st st' : state) (line : cmdLine) :
    reachable srv0 st ->
    serveLine line st = (Ok Continue, st') ->
    reachable srv0 st'
| reach_world (st : state) (w : World) :
    reachable srv0 st ->
    reachable srv0 {| sess := sess st; world := w; wire := wire st |}.

End Session.

Arguments Addr {World Envelope}.
Arguments Hostname {World Envelope}.
Arguments ReadTimeout {World Envelope}.
Arguments WriteTimeout {World Envelope}.
Arguments OnNewConnection {World Envelope}.
Arguments OnNewMail {World Envelope}.
Arguments hostname {P World Envelope}.
Arguments srv {World Envelope}.
Arguments remote {World Envelope}.
Arguments env {World Envelope}.
Arguments helloType {World Envelope}.
Arguments helloHost {World Envelope}.
Arguments newSession {World Envelope}.
Arguments sess {World Envelope}.
Arguments world {World Envelope}.
Arguments wire {World Envelope}.
Arguments ret {World Envelope A}.
Arguments bind {World Envelope A B}.
Arguments lift {World Envelope A}.
Arguments getSession {World Envelope}.
Arguments setSession {World Envelope}.
Arguments call {World Envelope A}.
Arguments Fprintf {World Envelope}.
Arguments Flush {World Envelope}.
Arguments forEach {World Envelope A}.
Arguments setEnv {World Envelope}.
Arguments setHelloType {World Envelope}.
Arguments setHelloHost {World Envelope}.
Arguments sendf {World Envelope}.
Arguments sendlinef {World Envelope}.
Arguments handleHello {P World Envelope}.
Arguments handleMailFrom {World Envelope}.
Arguments handleRcpt {P World Envelope}.
Arguments serveLine {P World Envelope}.
Arguments serveLoop {P World Envelope}.
Arguments serve {P World Envelope}.
Arguments reachable {P World Envelope}.

(** A platform for evaluating the program on ASCII input, where the three
    Unicode entries are never consulted. *)
Definition ascii_platform : Platform := {|
  unicode_ToUpper := fun s => s;
  unicode_ToLower := fun s => s;
  unicode_TrimRightSpace := fun s => s;
  system_hostname := "localhost"
|}.

(** The state after a response and nothing else: [text] added to the
    bytes already written. *)
Definition respond {World Envelope : Type} (st : state World Envelope)
  (text : string) : state World Envelope :=
  {| sess := sess st; world := world st; wire := wire st ++ text |}.

Definition ln (s : string) : string := s ++ CRLF.

(** ** A caller for evaluation: envelopes of the default kind on a heap

    An [Envelope] made of a [*BasicEnvelope] is a pointer: here the index
    of its cell in the caller's heap.  Go has no dangling pointers; on an
    index outside the heap [AddRecipient] leaves the heap as it is. *)

Definition heap : Type := list BasicEnvelope.
Definition ptr : Type := nat.

Fixpoint store (h : heap) (p : ptr) (e : BasicEnvelope) : heap :=
  match h, p with
  | [], _ => []
  | _ :: h', O => e :: h'
  | x :: h', S p' => x :: store h' p' e
  end.

Definition heapAddRecipient (p : ptr) (rcpt : MailAddress) (h : heap)
  : option error * heap :=
  match nth_error h p with
  | Some e =>
      let (e', err) := BasicEnvelopeMethods.AddRecipient e rcpt in
      (err, store h p e')
  | None => (None, h)
  end.

(** New-mail hooks: one allocates an empty envelope for every sender, one
    refuses every sender. *)
Definition acceptAll (c : netAddr) (from : MailAddress) (h : heap)
  : (option ptr * option error) * heap :=
  ((Some (List.length h), None), (h ++ [{| rcpts := [] |}])%list).

Definition rejectAll (c : netAddr) (from : MailAddress) (h : heap)
  : (option ptr * option error) * heap :=
  ((None, Some "sender refused"), h).

(** A new-mail hook that returns no envelope and no error. *)
Definition acceptWithoutEnvelope (c : netAddr) (from : MailAddress)
  (h : heap) : (option ptr * option error) * heap :=
  ((None, None), h).

(** A connection hook that refuses every connection. *)
Definition refuseConnection (c : netAddr) (h : heap) : option error * heap :=
  (Some "not welcome", h).

Definition demoServer
  (hook : option (netAddr -> MailAddress -> heap ->
                  (option ptr * option error) * heap))
  : Server heap ptr :=
  {| Addr := EmptyString; Hostname := "mx.example"; ReadTimeout := 0;
     WriteTimeout := 0; OnNewConnection := None; OnNewMail := hook |}.

Definition demoState
  (hook : option (netAddr -> MailAddress -> heap ->
                  (option ptr * option error) * heap))
  : state heap ptr :=
  {| sess := newSession (demoServer hook) "192.0.2.1:4000";
     world := []; wire := EmptyString |}.

(** A session of a server whose connection hook refuses everyone. *)
Definition gatedState : state heap ptr :=
  {| sess := newSession
               {| Addr := EmptyString; Hostname := EmptyString;
                  ReadTimeout := 0; WriteTimeout := 0;
                  OnNewConnection := Some refuseConnection;
                  OnNewMail := Some acceptAll |}
               "192.0.2.1:4000";
     world := []; wire := EmptyString |}.

(** The demonstration caller's session once the loop has consumed
    [input]; a further turn of the loop; a whole session. *)
Definition demoAfter
  (hook : option (netAddr -> MailAddress -> heap ->
                  (option ptr * option error) * heap))
  (input : string) : state heap ptr :=
  snd (@serveLoop ascii_platform heap ptr heapAddRecipient
         (readLines EmptyString input) (demoState hook)).

Definition demoTurn := @serveLine ascii_platform heap ptr heapAddRecipient.

Definition demoServe := @serve ascii_platform heap ptr heapAddRecipient.

(** The response of [serve] to NOOP, to DATA and to a verb it does not
    know. *)
Definition plainResponse (verb : string) : string :=
  if String.eqb verb "NOOP" then "250 2.0.0 OK"
  else if String.eqb verb "DATA" then "354 Go ahead"
  else "502 5.5.2 Error: command not recognized".

(** Giving an envelope of the default kind a list of recipients, one
    call of [AddRecipient] after the other: the envelope in the end and
    what each call returned. *)
Fixpoint addRecipients (e : BasicEnvelope) (rs : list MailAddress)
  : BasicEnvelope * list (option error) :=
  match rs with
  | [] => (e, [])
  | r :: rs' =>
      let (e1, err) := BasicEnvelopeMethods.AddRecipient e r in
      let (e2, errs) := addRecipients e1 rs' in
      (e2, err :: errs)
  end.

(** The line a client sends for a recipient, and the addresses that can
    stand between its brackets as they are: not empty, without [>] and
    without LF. *)
Definition rcptLine (a : string) : cmdLine := ("RCPT TO:<" ++ a ++ ">") ++ CRLF.

Definition plainAddress (a : string) : bool :=
  negb (String.eqb a EmptyString) && negb (has_byte ">" a)
  && negb (has_byte LF a).

(** Handing the addresses [rs] to envelope [e] in turn, from world [w]:
    the world in the end, and the responses the session gives. *)
Fixpoint deliver {World Envelope : Type}
  (AddRecipient : Envelope -> MailAddress -> World -> option error * World)
  (e : Envelope) (rs : list MailAddress) (w : World) : World * string :=
  match rs with
  | [] => (w, EmptyString)
  | a :: rs' =>
      let (err, w1) := AddRecipient e a w in
      let (w2, out) := deliver AddRecipient e rs' w1 in
      (w2,
       (match err with
        | Some msg => "550 bad recipient: " ++ msg
        | None => "250 2.1.0 Ok"
        end ++ CRLF) ++ out)
  end.

(** ** The specification's vocabulary, defined on its own

    [cut c s] splits [s] at its first byte [c]: the text before it, and
    the text after it when there is one.  [afterLast c s] is the text
    after the last byte [c] of [s]. *)

Fixpoint cut (c : ascii) (s : string) : string * option string :=
  match s with
  | EmptyString => (EmptyString, None)
  | String x s' =>
      if Ascii.eqb x c then (EmptyString, Some s')
      else let (a, b) := cut c s' in (String x a, b)
  end.

Fixpoint afterLast (c : ascii) (s : string) : option string :=
  match s with
  | EmptyString => None
  | String x s' =>
      match afterLast c s' with
      | Some r => Some r
      | None => if Ascii.eqb x c then Some s' else None
      end
  end.

Definition endsInCRLF (cl : string) : Prop := exists body, cl = body ++ CRLF.

(** Lines on the wire: [crlfLines] writes each line with its CRLF, and
    [wireLines] reads a response back into its lines (text after the last
    CRLF, if any, counts as a last line). *)
Fixpoint crlfLines (lines : list string) : string :=
  match lines with
  | [] => EmptyString
  | l :: rest => l ++ CRLF ++ crlfLines rest
  end.

Fixpoint wireLinesFrom (cur s : string) : list string :=
  match s with
  | EmptyString =>
      match cur with
      | EmptyString => []
      | _ => [cur]
      end
  | String c s' =>
      match s' with
      | String d s'' =>
          if Ascii.eqb c CR && Ascii.eqb d LF
          then cur :: wireLinesFrom EmptyString s''
          else wireLinesFrom (cur ++ String c EmptyString) s'
      | EmptyString => [cur ++ String c EmptyString]
      end
  end.

Definition wireLines (s : string) : list string :=
  wireLinesFrom EmptyString s.

(** The capability response as the specification words it: exactly five
    lines, the first four starting with [250-] and the last with [250 ]. *)
Definition fiveLineCapability (resp : string) : Prop :=
  exists l1 l2 l3 l4 l5,
    wireLines resp = [l1; l2; l3; l4; l5] /\
    prefix "250-" l1 = true /\ prefix "250-" l2 = true /\
    prefix "250-" l3 = true /\ prefix "250-" l4 = true /\
    prefix "250 " l5 = true.

(** A line as [ReadSlice] returns one: it ends in LF, holds no other LF
    and fits the reader's buffer. *)
Definition completeLine (l : string) : bool :=
  match cut LF l with
  | (_, Some after) => String.eqb after EmptyString && (len l <=? bufSize)
  | (_, None) => false
  end.

(** [n] bytes [c]. *)
Fixpoint fill (n : nat) (c : ascii) : string :=
  match n with
  | O => EmptyString
  | S n' => String c (fill n' c)
  end.

(** The domain of an address as the specification words it: the text
    after the last [@], in lower case, or the empty string. *)
Definition domainAfterLastAt {P : Platform} (a : string) : string :=
  match afterLast "@" a with
  | Some d => strings.ToLower d
  | None => EmptyString
  end.

(** * Properties *)

(** ** Strings *)

Lemma len_append (a b : string) : len (a ++ b) = len a + len b.
Proof.
  unfold len. induction a as [|x a IH]; cbn [String.length append].
  - lia.
  - lia.
Qed.

Lemma len_nonneg (s : string) : 0 <= len s.
Proof. unfold len. lia. Qed.

Lemma substring_all (s : string) : substring 0 (String.length s) s = s.
Proof.
  induction s as [|x s IH]; cbn; [reflexivity | now rewrite IH].
Qed.

Lemma substring_front (a b : string) :
  substring 0 (String.length a) (a ++ b) = a.
Proof.
  induction a as [|x a IH]; cbn.
  - destruct b; reflexivity.
  - now rewrite IH.
Qed.

Lemma substring_skip (a b : string) (n : nat) :
  substring (String.length a) n (a ++ b) = substring 0 n b.
Proof.
  induction a as [|x a IH]; cbn; [reflexivity | exact IH].
Qed.

Lemma append_nil_r (s : string) : s ++ EmptyString = s.
Proof. induction s as [|x s IH]; cbn; [reflexivity | now rewrite IH]. Qed.

Lemma append_assoc (a b c : string) : (a ++ b) ++ c = a ++ (b ++ c).
Proof. induction a as [|x a IH]; cbn; [reflexivity | now rewrite IH]. Qed.

Lemma slice_front (a b : string) : slice (a ++ b) 0 (len a) = Ok a.
Proof.
  unfold slice. rewrite len_append.
  pose proof (len_nonneg a). pose proof (len_nonneg b).
  replace ((0 <=? 0) && (0 <=? len a) && (len a <=? len a + len b))
    with true by (symmetry; rewrite !andb_true_iff, !Z.leb_le; lia).
  unfold len. rewrite Z.sub_0_r, Nat2Z.id. cbn [Z.to_nat].
  now rewrite substring_front.
Qed.

Lemma slice_middle (a b c : string) :
  slice (a ++ b ++ c) (len a) (len a + len b) = Ok b.
Proof.
  unfold slice. rewrite !len_append.
  pose proof (len_nonneg a). pose proof (len_nonneg b).
  pose proof (len_nonneg c).
  replace ((0 <=? len a) && (len a <=? len a + len b) &&
           (len a + len b <=? len a + (len b + len c)))
    with true by (symmetry; rewrite !andb_true_iff, !Z.leb_le; lia).
  replace (len a + len b - len a) with (len b) by lia.
  unfold len. rewrite !Nat2Z.id.
  now rewrite substring_skip, substring_front.
Qed.

(** ** [strings.Index] with a one-byte separator is [cut] *)

Lemma prefix_byte (c : ascii) (s : string) :
  prefix (String c EmptyString) s =
  match s with
  | EmptyString => false
  | String x _ => Ascii.eqb x c
  end.
Proof.
  destruct s as [|x s]; cbn; [reflexivity|].
  rewrite Ascii.eqb_sym.
  destruct (ascii_dec c x) as [->|ne].
  - rewrite Ascii.eqb_refl. destruct s; reflexivity.
  - apply Ascii.eqb_neq in ne. now rewrite ne.
Qed.

Lemma Index_nonneg_or_absent (s sep : string) :
  strings.Index s sep = -1 \/ 0 <= strings.Index s sep.
Proof.
  induction s as [|x s IH]; cbn [strings.Index].
  - destruct (prefix sep EmptyString); [right; lia | left; reflexivity].
  - destruct (prefix sep (String x s)); [right; lia|].
    destruct (strings.Index s sep <? 0) eqn:E; [left; reflexivity|].
    apply Z.ltb_ge in E. right; lia.
Qed.

Lemma Index_cut (c : ascii) (s : string) :
  match snd (cut c s) with
  | None =>
      fst (cut c s) = s /\ strings.Index s (String c EmptyString) = -1
  | Some r =>
      s = fst (cut c s) ++ String c r /\
      strings.Index s (String c EmptyString) = len (fst (cut c s))
  end.
Proof.
  induction s as [|x s IH].
  - cbn. split; reflexivity.
  - cbn [cut strings.Index]. rewrite prefix_byte.
    destruct (Ascii.eqb x c) eqn:E.
    + apply Ascii.eqb_eq in E. subst x. cbn. split; reflexivity.
    + destruct (cut c s) as [a b] eqn:Ec. cbn [fst snd] in *.
      destruct b as [r|].
      * destruct IH as [Hs Hi]. split.
        -- cbn. now rewrite <- Hs.
        -- rewrite Hi. pose proof (len_nonneg a).
           replace (len a <? 0) with false
             by (symmetry; apply Z.ltb_ge; lia).
           unfold len. cbn [String.length]. lia.
      * destruct IH as [Hs Hi]. split.
        -- now rewrite Hs.
        -- rewrite Hi. reflexivity.
Qed.

Lemma cut_append (c : ascii) (s t : string) :
  has_byte c t = false ->
  cut c (s ++ t) =
  match snd (cut c s) with
  | None => (s ++ t, None)
  | Some r => (fst (cut c s), Some (r ++ t))
  end.
Proof.
  intros Ht. induction s as [|x s IH].
  - cbn [append cut snd]. induction t as [|y t IHt]; [reflexivity|].
    unfold has_byte in Ht. cbn in Ht. apply orb_false_iff in Ht.
    destruct Ht as [Hy Ht]. cbn [cut]. rewrite Ascii.eqb_sym, Hy.
    rewrite (IHt Ht). reflexivity.
  - cbn [append cut]. destruct (Ascii.eqb x c); [reflexivity|].
    rewrite IH. destruct (cut c s) as [a [r|]]; reflexivity.
Qed.

Lemma cut_before_has_no_byte (c : ascii) (s : string) :
  has_byte c (fst (cut c s)) = false.
Proof.
  induction s as [|x s IH]; [reflexivity|].
  cbn [cut]. destruct (Ascii.eqb x c) eqn:E; [reflexivity|].
  destruct (cut c s) as [a b]. cbn [fst] in *.
  unfold has_byte in *. cbn. now rewrite Ascii.eqb_sym, E, IH.
Qed.

Lemma substring_split (s : string) (k : nat) :
  (k <= String.length s)%nat ->
  s = substring 0 k s ++ substring k (String.length s - k) s.
Proof.
  revert k. induction s as [|x s IH]; intros k Hk.
  - destruct k; reflexivity.
  - destruct k as [|k].
    + rewrite Nat.sub_0_r, substring_all. reflexivity.
    + cbn [substring append String.length Nat.sub].
      cbn [String.length] in Hk. f_equal. apply IH. lia.
Qed.

Lemma HasSuffix_CRLF (cl : string) :
  strings.HasSuffix cl CRLF = true <-> endsInCRLF cl.
Proof.
  unfold strings.HasSuffix, endsInCRLF. split.
  - intros H. apply andb_true_iff in H. destruct H as [Hl He].
    apply Z.leb_le in Hl. apply String.eqb_eq in He.
    unfold len in Hl. change (String.length CRLF) with 2%nat in *.
    exists (substring 0 (String.length cl - 2) cl).
    rewrite <- He.
    replace (substring (String.length cl - 2) 2 cl)
      with (substring (String.length cl - 2)
              (String.length cl - (String.length cl - 2)) cl)
      by (f_equal; lia).
    apply substring_split. lia.
  - intros [body ->]. apply andb_true_iff. split.
    + apply Z.leb_le. rewrite len_append. pose proof (len_nonneg body).
      lia.
    + apply String.eqb_eq.
      replace (String.length (body ++ CRLF) - String.length CRLF)%nat
        with (String.length body).
      * rewrite substring_skip. reflexivity.
      * pose proof (len_append body CRLF) as L. unfold len in L.
        change (String.length CRLF) with 2%nat in *. lia.
Qed.

Lemma not_HasSuffix_CRLF (cl : string) :
  strings.HasSuffix cl CRLF = false <-> ~ endsInCRLF cl.
Proof.
  rewrite <- HasSuffix_CRLF.
  destruct (strings.HasSuffix cl CRLF); split; congruence.
Qed.

(** ** Trimming on the right *)

Lemma reverseOnto_append (s acc : string) :
  reverseOnto s acc = reverse s ++ acc.
Proof.
  unfold reverse. revert acc.
  induction s as [|c s IH]; intros acc; cbn [reverseOnto].
  - reflexivity.
  - rewrite (IH (String c acc)), (IH (String c EmptyString)), append_assoc.
    reflexivity.
Qed.

Lemma reverseOnto_twice (s acc t : string) :
  reverseOnto (reverseOnto s acc) t = reverseOnto acc (s ++ t).
Proof.
  revert acc t. induction s as [|c s IH]; intros acc t; cbn [reverseOnto].
  - reflexivity.
  - rewrite IH. reflexivity.
Qed.

Lemma reverse_involutive (s : string) : reverse (reverse s) = s.
Proof.
  unfold reverse. rewrite reverseOnto_twice. cbn [reverseOnto].
  apply append_nil_r.
Qed.

Lemma reverse_append (a b : string) :
  reverse (a ++ b) = reverse b ++ reverse a.
Proof.
  induction a as [|c a IH].
  - cbn [append]. now rewrite append_nil_r.
  - change (String c a ++ b) with (String c (a ++ b)).
    unfold reverse at 1 3. cbn [reverseOnto].
    rewrite !reverseOnto_append, IH, append_assoc. reflexivity.
Qed.

Lemma allBytes_reverseOnto (f : ascii -> bool) (s acc : string) :
  allBytes f (reverseOnto s acc) = allBytes f s && allBytes f acc.
Proof.
  unfold allBytes. revert acc.
  induction s as [|c s IH]; intros acc; cbn [reverseOnto].
  - reflexivity.
  - rewrite IH. cbn [list_ascii_of_string forallb].
    destruct (f c), (forallb f (list_ascii_of_string s)); reflexivity.
Qed.

Section Trimming.
Context {P : Platform}.

Lemma trimRightScan_spec (r : string) :
  exists ws rest,
    r = ws ++ rest /\ allBytes isSpaceByte ws = true /\
    match rest with
    | EmptyString => strings.trimRightScan r = EmptyString
    | String c _ =>
        if 128 <=? byteval c
        then strings.trimRightScan r = unicode_TrimRightSpace (reverse rest)
        else isSpaceByte c = false /\
             strings.trimRightScan r = reverse rest
    end.
Proof.
  induction r as [|c r IH].
  - exists EmptyString, EmptyString. repeat split.
  - cbn [strings.trimRightScan].
    destruct (128 <=? byteval c) eqn:Hhigh.
    + exists EmptyString, (String c r). cbn [append]. rewrite Hhigh.
      repeat split.
    + destruct (isSpaceByte c) eqn:Hsp.
      * destruct IH as (ws & rest & Hr & Hws & Hrest).
        exists (String c ws), rest. split; [cbn; now rewrite Hr|].
        split.
        -- unfold allBytes in *. cbn. now rewrite Hsp, Hws.
        -- exact Hrest.
      * exists EmptyString, (String c r). cbn [append]. rewrite Hhigh.
        repeat split. exact Hsp.
Qed.

(** [TrimRightSpace] removes the ASCII white space at the end of [s], up
    to the last byte that is not one.  When that byte is ASCII, what is
    left is the result; otherwise the platform trims what is left. *)
Lemma TrimRightSpace_spec (s : string) :
  exists kept ws,
    s = kept ++ ws /\ allBytes isSpaceByte ws = true /\
    ((kept = EmptyString /\ strings.TrimRightSpace s = EmptyString) \/
     exists front c,
       kept = front ++ String c EmptyString /\
       if 128 <=? byteval c
       then strings.TrimRightSpace s = unicode_TrimRightSpace kept
       else isSpaceByte c = false /\ strings.TrimRightSpace s = kept).
Proof.
  unfold strings.TrimRightSpace.
  destruct (trimRightScan_spec (reverse s)) as (ws & rest & Hr & Hws & Hrest).
  exists (reverse rest), (reverse ws). split; [|split].
  - rewrite <- reverse_append, <- Hr. symmetry. apply reverse_involutive.
  - unfold reverse. rewrite allBytes_reverseOnto, Hws. reflexivity.
  - destruct rest as [|c rest'].
    + left. split; [reflexivity | exact Hrest].
    + right. exists (reverse rest'), c. split.
      * unfold reverse at 1. cbn [reverseOnto].
        apply reverseOnto_append.
      * exact Hrest.
Qed.

End Trimming.

(** ** Command Line *)

Section CommandLine.
Context {P : Platform}.

(** The two accessors on a line that does end in CRLF, in terms of the
    split of its body at the first space. *)
Lemma Verb_Arg_of_body (body : string) :
  CmdLine.Verb (body ++ CRLF) = Ok (strings.ToUpper (fst (cut " " body)))
  /\ CmdLine.Arg (body ++ CRLF) =
     Ok (match snd (cut " " body) with
         | Some rest => strings.TrimRightSpace rest
         | None => EmptyString
         end).
Proof.
  unfold CmdLine.Verb, CmdLine.Arg.
  pose proof (Index_cut " " (body ++ CRLF)) as H.
  rewrite (cut_append " " body CRLF eq_refl) in H.
  pose proof (Index_cut " " body) as Hb.
  destruct (cut " " body) as [tok [rest|]] eqn:Ec; cbn [fst snd] in *.
  - destruct H as [_ Hi]. destruct Hb as [Hb _]. rewrite Hi.
    pose proof (len_nonneg tok).
    replace (len tok =? -1) with false by (symmetry; apply Z.eqb_neq; lia).
    cbn [negb]. subst body.
    rewrite append_assoc. split.
    + rewrite slice_front. reflexivity.
    + change (tok ++ String " " rest ++ CRLF)
        with (tok ++ String " " (rest ++ CRLF)).
      replace (tok ++ String " " (rest ++ CRLF))
        with ((tok ++ " ") ++ rest ++ CRLF)
        by (rewrite append_assoc; reflexivity).
      replace (len tok + 1) with (len (tok ++ " "))
        by (rewrite len_append; reflexivity).
      replace (len ((tok ++ " ") ++ rest ++ CRLF) - 2)
        with (len (tok ++ " ") + len rest)
        by (rewrite !len_append; change (len CRLF) with 2; lia).
      rewrite slice_middle. reflexivity.
  - destruct H as [_ Hi]. rewrite Hi. cbn [Z.eqb negb]. split.
    + replace (len (body ++ CRLF) - 2) with (len body)
        by (rewrite len_append; change (len CRLF) with 2; lia).
      rewrite slice_front. destruct Hb as [-> _]. reflexivity.
    + reflexivity.
Qed.

Lemma checkValid_of_body (body : string) :
  CmdLine.checkValid (body ++ CRLF) =
  Ok (if in_strings (strings.ToUpper (fst (cut " " body)))
           ["RSET"; "DATA"; "QUIT"]
         && negb (String.eqb
                    (match snd (cut " " body) with
                     | Some rest => strings.TrimRightSpace rest
                     | None => EmptyString
                     end) EmptyString)
      then Some "unexpected argument" else None).
Proof.
  unfold CmdLine.checkValid.
  replace (strings.HasSuffix (body ++ CRLF) CRLF) with true
    by (symmetry; apply HasSuffix_CRLF; now exists body).
  destruct (Verb_Arg_of_body body) as [-> ->]. cbn [negb go_bind].
  destruct (in_strings _ _); [|reflexivity].
  cbn [go_bind andb]. destruct (negb _); reflexivity.
Qed.

(** A line that passes [checkValid] has a verb and an argument: neither
    accessor panics on it. *)
Lemma valid_line_has_verb_and_arg (cl : cmdLine) :
  CmdLine.checkValid cl = Ok None ->
  exists v a, CmdLine.Verb cl = Ok v /\ CmdLine.Arg cl = Ok a.
Proof.
  intros H. destruct (strings.HasSuffix cl CRLF) eqn:E.
  - apply HasSuffix_CRLF in E. destruct E as [body ->].
    destruct (Verb_Arg_of_body body) as [-> ->]. eauto.
  - unfold CmdLine.checkValid in H. rewrite E in H. discriminate.
Qed.

(** C7. On every line ending in CRLF, [Verb] is the text before the first
    space in upper case (the whole line without its CRLF when it has no
    space), and [Arg] is the text after the first space, without the CRLF
    and with trailing white space trimmed (empty when there is no
    space). *)
Theorem verb_and_arg_of_terminated_line (body : string) :
  match cut " " body with
  | (tok, Some rest) =>
      body = tok ++ " " ++ rest /\ has_byte " " tok = false /\
      CmdLine.Verb (body ++ CRLF) = Ok (strings.ToUpper tok) /\
      CmdLine.Arg (body ++ CRLF) = Ok (strings.TrimRightSpace rest)
  | (_, None) =>
      has_byte " " body = false /\
      CmdLine.Verb (body ++ CRLF) = Ok (strings.ToUpper body) /\
      CmdLine.Arg (body ++ CRLF) = Ok EmptyString
  end.
Proof.
  pose proof (Verb_Arg_of_body body) as [Hv Ha].
  pose proof (Index_cut " " body) as Hc.
  pose proof (cut_before_has_no_byte " " body) as Hn.
  destruct (cut " " body) as [tok [rest|]]; cbn [fst snd] in *.
  - destruct Hc as [Hb _]. repeat split; assumption.
  - destruct Hc as [Hb _]. subst tok. repeat split; assumption.
Qed.

(** C6. [checkValid] fails exactly when the line does not end in CRLF, or
    its verb is one of RSET, DATA, QUIT and its argument is not empty; on
    every other line it succeeds.  It never panics. *)
Theorem checkValid_fails_exactly_when (cl : cmdLine) :
  let forbidden :=
    ~ endsInCRLF cl \/
    exists v a,
      CmdLine.Verb cl = Ok v /\ In v ["RSET"; "DATA"; "QUIT"] /\
      CmdLine.Arg cl = Ok a /\ a <> EmptyString in
  (forbidden -> exists msg, CmdLine.checkValid cl = Ok (Some msg)) /\
  (~ forbidden -> CmdLine.checkValid cl = Ok None).
Proof.
  cbv zeta.
  assert (Hin : forall v, in_strings v ["RSET"; "DATA"; "QUIT"] = true <->
                          In v ["RSET"; "DATA"; "QUIT"]).
  { intros v. unfold in_strings. rewrite existsb_exists. split.
    - intros [x [Hx He]]. apply String.eqb_eq in He. now subst x.
    - intros Hv. exists v. split; [assumption | apply String.eqb_refl]. }
  destruct (strings.HasSuffix cl CRLF) eqn:E.
  - pose proof E as E'. apply HasSuffix_CRLF in E'.
    destruct E' as [body ->].
    rewrite checkValid_of_body.
    destruct (Verb_Arg_of_body body) as [Hv Ha]. rewrite Hv, Ha.
    set (v := strings.ToUpper (fst (cut " " body))) in *.
    set (a := match snd (cut " " body) with
              | Some rest => strings.TrimRightSpace rest
              | None => EmptyString
              end) in *.
    destruct (in_strings v ["RSET"; "DATA"; "QUIT"]) eqn:Ev;
      destruct (String.eqb a EmptyString) eqn:Ea; cbn [andb negb]; split;
      try (intros _; eauto; fail).
    + intros [Hn | (v' & a' & Hv' & _ & Ha' & Hne)].
      * exfalso. apply Hn. now exists body.
      * apply String.eqb_eq in Ea. congruence.
    + intros Hn. exfalso. apply Hn. right. exists v, a.
      apply Hin in Ev. apply String.eqb_neq in Ea. auto.
    + intros [Hn | (v' & a' & Hv' & Hi & _)].
      * exfalso. apply Hn. now exists body.
      * apply Hin in Hi. congruence.
    + intros [Hn | (v' & a' & Hv' & Hi & _)].
      * exfalso. apply Hn. now exists body.
      * apply Hin in Hi. congruence.
  - unfold CmdLine.checkValid. rewrite E. cbn [negb]. split.
    + intros _. eauto.
    + intros Hn. exfalso. apply Hn. left.
      now apply not_HasSuffix_CRLF.
Qed.

End CommandLine.

Lemma verb_and_arg_of_terminated_line_witness :
  @CmdLine.Verb ascii_platform ("mail From:<a@b.com>  " ++ CRLF) = Ok "MAIL"
  /\ @CmdLine.Arg ascii_platform ("mail From:<a@b.com>  " ++ CRLF)
     = Ok "From:<a@b.com>".
Proof.
  pose proof (@verb_and_arg_of_terminated_line ascii_platform
                "mail From:<a@b.com>  ") as H.
  cbn [cut Ascii.eqb Bool.eqb] in H.
  destruct H as (_ & _ & Hv & Ha). split.
  - rewrite Hv. vm_compute. reflexivity.
  - rewrite Ha. vm_compute. reflexivity.
Defined.

Lemma checkValid_fails_exactly_when_witness :
  (exists msg, @CmdLine.checkValid ascii_platform ("quit now" ++ CRLF)
               = Ok (Some msg))
  /\ @CmdLine.checkValid ascii_platform ("quit   " ++ CRLF) = Ok None.
Proof.
  split.
  - apply (proj1 (@checkValid_fails_exactly_when ascii_platform _)).
    right. exists "QUIT", "now". repeat split.
    + cbn. auto.
    + discriminate.
  - apply (proj2 (@checkValid_fails_exactly_when ascii_platform _)).
    intros [Hn | (v & a & Hv & Hi & Ha & Hne)].
    + apply Hn. now exists "quit   ".
    + vm_compute in Ha. congruence.
Defined.

(** ** Mail Address *)

Section MailAddressProperties.
Context {P : Platform}.

Lemma slice_tail (a b : string) : slice (a ++ b) (len a) (len (a ++ b)) = Ok b.
Proof.
  pose proof (slice_middle a b EmptyString) as H.
  rewrite append_nil_r in H. rewrite len_append. exact H.
Qed.

(** What the two methods compute.  [Email] returns the address as given.
    [Hostname] cuts the address at its first [@], by [strings.Index], and
    returns what follows in lower case, or the empty string when the
    address has no [@]. *)
Lemma email_and_hostname_of_address (a : addrString) :
  AddrString.Email a = a /\
  match cut "@" a with
  | (localPart, Some domain) =>
      a = localPart ++ "@" ++ domain /\ has_byte "@" localPart = false /\
      AddrString.Hostname a = Ok (strings.ToLower domain)
  | (_, None) =>
      has_byte "@" a = false /\ AddrString.Hostname a = Ok EmptyString
  end.
Proof.
  split; [reflexivity|].
  unfold AddrString.Hostname.
  pose proof (Index_cut "@" a) as Hc.
  pose proof (cut_before_has_no_byte "@" a) as Hn.
  destruct (cut "@" a) as [l [d|]]; cbn [fst snd] in *.
  - destruct Hc as [Ha Hi]. rewrite Hi.
    pose proof (len_nonneg l).
    replace (len l =? -1) with false by (symmetry; apply Z.eqb_neq; lia).
    cbn [negb]. repeat split; try assumption.
    rewrite Ha at 1 2.
    replace (l ++ String "@" d) with ((l ++ "@") ++ d)
      by (rewrite append_assoc; reflexivity).
    replace (len l + 1) with (len (l ++ "@"))
      by (rewrite len_append; reflexivity).
    rewrite slice_tail. reflexivity.
  - destruct Hc as [Ha Hi]. rewrite Hi. subst l. split; [assumption|].
    reflexivity.
Qed.

Lemma has_byte_cons_at (c x : ascii) (s : string) :
  has_byte c (String x s) = false ->
  Ascii.eqb x c = false /\ has_byte c s = false.
Proof.
  unfold has_byte. cbn [list_ascii_of_string existsb].
  rewrite orb_false_iff, (Ascii.eqb_sym c x). tauto.
Qed.

Lemma afterLast_absent (c : ascii) (s : string) :
  has_byte c s = false -> afterLast c s = None.
Proof.
  induction s as [|x s IH]; intros H; [reflexivity|].
  apply has_byte_cons_at in H. destruct H as [Hx Hs].
  cbn [afterLast]. now rewrite (IH Hs), Hx.
Qed.

Lemma afterLast_single (c : ascii) (l d : string) :
  has_byte c d = false -> afterLast c (l ++ String c d) = Some d.
Proof.
  intros Hd. induction l as [|x l IH]; cbn [append afterLast].
  - now rewrite (afterLast_absent c d Hd), Ascii.eqb_refl.
  - now rewrite IH.
Qed.

(** On an address with one [@] at most the first [@] is the last one, and
    [Hostname] is the domain the interface promises: the code and the
    specification part ways only on addresses with several [@]. *)
Lemma hostname_with_one_at_is_the_domain (a : addrString) :
  match cut "@" a with
  | (_, Some domain) =>
      has_byte "@" domain = false ->
      AddrString.Hostname a = Ok (domainAfterLastAt a)
  | (_, None) => AddrString.Hostname a = Ok (domainAfterLastAt a)
  end.
Proof.
  destruct (email_and_hostname_of_address a) as [_ H].
  unfold domainAfterLastAt.
  destruct (cut "@" a) as [l [d|]].
  - destruct H as (Ha & _ & Hh). intros Hd.
    rewrite Hh, Ha. cbn [append]. now rewrite (afterLast_single "@" l d Hd).
  - destruct H as [Hn Hh]. now rewrite Hh, (afterLast_absent "@" a Hn).
Qed.

End MailAddressProperties.

(** The address below is plain ASCII: what the code returns for it does
    not depend on the platform. *)
Lemma hostname_of_two_ats_on_any_platform (P : Platform) :
  @AddrString.Hostname P "user@Relay@EXAMPLE.com" = Ok "relay@example.com"
  /\ @domainAfterLastAt P "user@Relay@EXAMPLE.com" = "example.com".
Proof. split; reflexivity. Qed.

(** C5: what the code does on an address with two [@].  The interface
    documents [Hostname] as the canonical host name in lower case, and the
    specification as the text after the last [@], here [example.com].
    The code cuts at the first [@] and returns [relay@example.com], which
    is not a host name. *)
Lemma hostname_is_not_after_last_at :
  @AddrString.Hostname ascii_platform "user@Relay@EXAMPLE.com"
    = Ok "relay@example.com"
  /\ @domainAfterLastAt ascii_platform "user@Relay@EXAMPLE.com"
    = "example.com"
  /\ @AddrString.Hostname ascii_platform "user@Relay@EXAMPLE.com"
    <> Ok (@domainAfterLastAt ascii_platform "user@Relay@EXAMPLE.com").
Proof.
  repeat split; vm_compute; discriminate.
Qed.

(** ** Session *)

Section SessionProperties.
Context {P : Platform}.
Variable World : Type.
Variable Envelope : Type.
Variable AddRecipient :
  Envelope -> MailAddress -> World -> option error * World.

Ltac run :=
  cbv beta iota zeta delta
    [bind ret lift getSession setSession call Fprintf Flush forEach
     setEnv setHelloType setHelloHost sendf sendlinef respond];
  cbn [sess world wire srv remote env helloType helloHost].

Lemma FindStringSubmatch_shape (re : Regexp) (s : string) :
  FindStringSubmatch re s = [] \/
  exists whole group, FindStringSubmatch re s = [whole; group].
Proof.
  unfold FindStringSubmatch.
  destruct (matchKeyword (keyword re) s) as [s1|]; [|now left].
  destruct (skipSpaces s1) as [|c s2]; [now left|].
  destruct c as [[] [] [] [] [] [] [] []]; try (now left).
  destruct (matchGroup (groupMayBeEmpty re) s2) as [[g rest]|];
    [|now left].
  right. eauto.
Qed.

Lemma handleMailFrom_nested (st : state World Envelope) (e : Envelope)
  (email : string) :
  env (sess st) = Some e ->
  handleMailFrom email st =
  (Ok tt, respond st ("503 5.5.1 Error: nested MAIL command" ++ CRLF)).
Proof.
  intros He. unfold handleMailFrom. run. rewrite He. run. reflexivity.
Qed.

(** The turn of the loop on a valid MAIL line whose argument matches
    [mailFromRE]: the handler runs on the group of the match. *)
Lemma serveLine_mail (st : state World Envelope) (line : cmdLine)
  (arg : string) :
  CmdLine.checkValid line = Ok None ->
  CmdLine.Verb line = Ok "MAIL" ->
  CmdLine.Arg line = Ok arg ->
  FindStringSubmatch mailFromRE arg <> [] ->
  exists whole email,
    FindStringSubmatch mailFromRE arg = [whole; email] /\
    serveLine AddRecipient line st =
    (let (r, st') := handleMailFrom email st in
     (match r with Ok _ => Ok Continue | Panic e => Panic e end, st')).
Proof.
  intros Hvalid Hverb Harg Hm.
  destruct (FindStringSubmatch_shape mailFromRE arg)
    as [Hnil | (whole & email & Hfind)]; [contradiction|].
  exists whole, email. split; [assumption|].
  unfold serveLine. run. rewrite Hvalid, Hverb. cbn [in_strings existsb].
  change (String.eqb "MAIL" "HELO") with false.
  change (String.eqb "MAIL" "EHLO") with false.
  change (String.eqb "MAIL" "QUIT") with false.
  change (String.eqb "MAIL" "RSET") with false.
  change (String.eqb "MAIL" "NOOP") with false.
  change (String.eqb "MAIL" "MAIL") with true.
  cbn [orb]. rewrite Harg, Hfind. cbn [index nth_error].
  destruct (handleMailFrom email st) as [[[]|e] st']; reflexivity.
Qed.

(** C1. With an envelope active, a MAIL FROM command is answered 503 and
    changes nothing else: the session keeps the same envelope, and the
    caller's world, where the envelope keeps its recipients, is as it
    was.  The session goes on to the next command. *)
Theorem nested_mail_from_is_rejected (st : state World Envelope)
  (e : Envelope) :
  env (sess st) = Some e ->
  (forall email,
     handleMailFrom email st =
     (Ok tt, respond st ("503 5.5.1 Error: nested MAIL command" ++ CRLF)))
  /\
  (forall line arg,
     CmdLine.checkValid line = Ok None ->
     CmdLine.Verb line = Ok "MAIL" ->
     CmdLine.Arg line = Ok arg ->
     FindStringSubmatch mailFromRE arg <> [] ->
     serveLine AddRecipient line st =
     (Ok Continue,
      respond st ("503 5.5.1 Error: nested MAIL command" ++ CRLF))).
Proof.
  intros He. split.
  - intros email. now apply handleMailFrom_nested with (e := e).
  - intros line arg Hvalid Hverb Harg Hm.
    destruct (serveLine_mail st line arg Hvalid Hverb Harg Hm)
      as (whole & email & _ & ->).
    now rewrite (handleMailFrom_nested st e email He).
Qed.

(** *** The loop around a turn *)

Lemma serveLoop_continue (st st' : state World Envelope) (line : cmdLine)
  (rest : list cmdLine) :
  serveLine AddRecipient line st = (Ok Continue, st') ->
  serveLoop AddRecipient (line :: rest) st = serveLoop AddRecipient rest st'.
Proof.
  intros H. cbn [serveLoop]. unfold bind. rewrite H. reflexivity.
Qed.

Lemma serveLoop_panic (st st' : state World Envelope) (line : cmdLine)
  (rest : list cmdLine) (e : runtimeError) :
  serveLine AddRecipient line st = (Panic e, st') ->
  serveLoop AddRecipient (line :: rest) st = (Panic e, st').
Proof.
  intros H. cbn [serveLoop]. unfold bind. rewrite H. reflexivity.
Qed.

(** *** What a turn of the loop never touches *)

Ltac run_in H :=
  cbv beta iota zeta delta
    [bind ret lift getSession setSession call Fprintf Flush forEach
     setEnv setHelloType setHelloHost sendf sendlinef respond] in H;
  cbn [sess world wire srv remote env helloType helloHost] in H.

Ltac split_cases H :=
  repeat (match type of H with
          | context [match ?x with _ => _ end] =>
              lazymatch x with
              | context [match _ with _ => _ end] => fail
              | _ => destruct x eqn:?
              end
          end; run_in H).

Lemma serveLine_frame (st st' : state World Envelope) (line : cmdLine)
  (r : go loopControl) :
  serveLine AddRecipient line st = (r, st') ->
  srv (sess st') = srv (sess st) /\
  remote (sess st') = remote (sess st) /\
  (OnNewMail (srv (sess st)) = None ->
   env (sess st) = None -> env (sess st') = None).
Proof.
  destruct st as [[sv rm ev ht hh] w out].
  unfold serveLine, handleHello, handleMailFrom, handleRcpt.
  intros H. run_in H. split_cases H;
    inversion H; subst; cbn [sess srv remote env];
    repeat split; intros; congruence.
Qed.

Lemma reachable_invariant (srv0 : Server World Envelope)
  (st : state World Envelope) :
  reachable AddRecipient srv0 st ->
  srv (sess st) = srv0 /\
  (OnNewMail srv0 = None -> env (sess st) = None).
Proof.
  induction 1 as [rwc w out | st st' line _ [IHs IHe] Hturn
                 | st w _ [IHs IHe]].
  - split; [reflexivity | intros _; reflexivity].
  - destruct (serveLine_frame st st' line _ Hturn) as (Hs & _ & He).
    split; [congruence|]. intros Hnone. apply He.
    + now rewrite IHs.
    + now apply IHe.
  - split; assumption.
Qed.

Lemma serveLine_rcpt (st : state World Envelope) (line : cmdLine) :
  CmdLine.checkValid line = Ok None ->
  CmdLine.Verb line = Ok "RCPT" ->
  serveLine AddRecipient line st =
  (let (r, st') := handleRcpt AddRecipient line st in
   (match r with Ok _ => Ok Continue | Panic e => Panic e end, st')).
Proof.
  intros Hvalid Hverb.
  unfold serveLine. run. rewrite Hvalid, Hverb. cbn [in_strings existsb].
  change (String.eqb "RCPT" "HELO") with false.
  change (String.eqb "RCPT" "EHLO") with false.
  change (String.eqb "RCPT" "QUIT") with false.
  change (String.eqb "RCPT" "RSET") with false.
  change (String.eqb "RCPT" "NOOP") with false.
  change (String.eqb "RCPT" "MAIL") with false.
  change (String.eqb "RCPT" "RCPT") with true.
  cbn [orb].
  destruct (handleRcpt AddRecipient line st) as [[[]|e] st']; reflexivity.
Qed.

Lemma handleRcpt_without_envelope (st : state World Envelope)
  (line : cmdLine) :
  env (sess st) = None ->
  handleRcpt AddRecipient line st =
  (Ok tt, respond st ("503 5.5.1 Error: need MAIL command" ++ CRLF)).
Proof.
  intros He. unfold handleRcpt. run. rewrite He. run. reflexivity.
Qed.

(** With an envelope active and an argument that [rcptToRE] does not
    match, [handleRcpt] sends the 501 and then panics on [m[1]]: no
    recipient is added and nothing else changes. *)
Lemma handleRcpt_bad_syntax (st : state World Envelope) (e : Envelope)
  (line : cmdLine) (arg : string) :
  env (sess st) = Some e ->
  CmdLine.Arg line = Ok arg ->
  FindStringSubmatch rcptToRE arg = [] ->
  handleRcpt AddRecipient line st =
  (Panic IndexOutOfRange,
   respond st ("501 5.1.7 Bad sender address syntax" ++ CRLF)).
Proof.
  intros He Harg Hm. unfold handleRcpt. run.
  rewrite He, Harg, Hm. run. reflexivity.
Qed.

(** C2. Without an envelope, every RCPT command is answered 503 and the
    session is left as it was: no envelope appears, and the caller's
    world is untouched. *)
Theorem rcpt_without_mail_is_rejected (st : state World Envelope) :
  env (sess st) = None ->
  (forall line,
     handleRcpt AddRecipient line st =
     (Ok tt, respond st ("503 5.5.1 Error: need MAIL command" ++ CRLF)))
  /\
  (forall line,
     CmdLine.checkValid line = Ok None ->
     CmdLine.Verb line = Ok "RCPT" ->
     serveLine AddRecipient line st =
     (Ok Continue,
      respond st ("503 5.5.1 Error: need MAIL command" ++ CRLF)))
  /\
  (forall text, env (sess (respond st text)) = None /\
                sess (respond st text) = sess st /\
                world (respond st text) = world st).
Proof.
  intros He. split; [|split].
  - intros line. now apply handleRcpt_without_envelope.
  - intros line Hvalid Hverb.
    rewrite (serveLine_rcpt st line Hvalid Hverb).
    now rewrite (handleRcpt_without_envelope st line He).
  - intros text. cbn. auto.
Qed.

(** C8. On a server without a new-mail hook, a session never has an
    envelope, and every MAIL command that is valid and matches
    [mailFromRE] is answered 451; the session state stays as it was and
    the loop goes on. *)
Theorem mail_from_without_hook_is_451 (srv0 : Server World Envelope)
  (st : state World Envelope) (line : cmdLine) (arg : string) :
  OnNewMail srv0 = None ->
  reachable AddRecipient srv0 st ->
  CmdLine.checkValid line = Ok None ->
  CmdLine.Verb line = Ok "MAIL" ->
  CmdLine.Arg line = Ok arg ->
  FindStringSubmatch mailFromRE arg <> [] ->
  env (sess st) = None /\
  serveLine AddRecipient line st =
  (Ok Continue,
   respond st ("451 Server.OnNewMail not configured" ++ CRLF)).
Proof.
  intros Hnone Hreach Hvalid Hverb Harg Hm.
  destruct (reachable_invariant srv0 st Hreach) as [Hs He].
  specialize (He Hnone). split; [assumption|].
  destruct (serveLine_mail st line arg Hvalid Hverb Harg Hm)
    as (whole & email & _ & ->).
  unfold handleMailFrom. run. rewrite He, Hs, Hnone. run. reflexivity.
Qed.

(** C9. Without an envelope, when the new-mail hook answers a valid MAIL
    command with an error, nothing is written to the client, the session
    still has no envelope, and the loop goes on; only the caller's world
    is what the hook made of it. *)
Theorem rejected_mail_from_is_silent (st : state World Envelope)
  (line : cmdLine) (arg whole email : string)
  (cb : netAddr -> MailAddress -> World ->
        (option Envelope * option error) * World)
  (returned : option Envelope) (msg : error) (w' : World) :
  env (sess st) = None ->
  OnNewMail (srv (sess st)) = Some cb ->
  CmdLine.checkValid line = Ok None ->
  CmdLine.Verb line = Ok "MAIL" ->
  CmdLine.Arg line = Ok arg ->
  FindStringSubmatch mailFromRE arg = [whole; email] ->
  cb (remote (sess st)) email (world st) = ((returned, Some msg), w') ->
  serveLine AddRecipient line st =
  (Ok Continue, {| sess := sess st; world := w'; wire := wire st |}).
Proof.
  intros He Hcb Hvalid Hverb Harg Hm Hcall.
  assert (Hne : FindStringSubmatch mailFromRE arg <> [])
    by (rewrite Hm; discriminate).
  destruct (serveLine_mail st line arg Hvalid Hverb Harg Hne)
    as (whole' & email' & Hm' & ->).
  assert (email' = email) by congruence. subst email'.
  destruct st as [[sv rm ev ht hh] w out].
  cbn [sess world wire srv remote env] in *. subst ev.
  unfold handleMailFrom. run. rewrite Hcb. run. rewrite Hcall. run.
  reflexivity.
Qed.

(** *** The hello exchange *)

Lemma handleHello_result (st : state World Envelope)
  (greeting host : string) :
  handleHello greeting host st =
  (Ok tt,
   {| sess := {| srv := srv (sess st); remote := remote (sess st);
                 env := env (sess st);
                 helloType := greeting; helloHost := host |};
      world := world st;
      wire := wire st ++
              crlfLines [ "250-" ++ hostname (srv (sess st));
                          "250-PIPELINING";
                          "250-SIZE 10240000";
                          "250-ENHANCEDSTATUSCODES";
                          "250-8BITMIME";
                          "250 DSN" ] |}).
Proof.
  unfold handleHello. run. cbn [crlfLines].
  f_equal. f_equal. rewrite !append_assoc, append_nil_r. reflexivity.
Qed.

(** C4, as the code has it. The response to HELO or EHLO is six lines:
    [250-] and the server's host name first, then the five extension
    lines in the fixed order, of which the first four start with [250-]
    and the last, DSN, with [250 ]. *)
Theorem hello_response_is_six_lines (st : state World Envelope)
  (greeting host : string) :
  fst (handleHello greeting host st) = Ok tt /\
  wire (snd (handleHello greeting host st)) =
  wire st ++
  crlfLines [ "250-" ++ hostname (srv (sess st));
              "250-PIPELINING";
              "250-SIZE 10240000";
              "250-ENHANCEDSTATUSCODES";
              "250-8BITMIME";
              "250 DSN" ].
Proof.
  rewrite handleHello_result. split; reflexivity.
Qed.

(** C10. HELO and EHLO record the greeting and the host and write the
    response; the envelope, like the server, the remote address and the
    caller's world, is left as it was, whether or not a transaction is
    open. *)
Theorem hello_keeps_envelope (st : state World Envelope) :
  (forall greeting host,
     exists st',
       handleHello greeting host st = (Ok tt, st') /\
       env (sess st') = env (sess st) /\
       helloType (sess st') = greeting /\
       helloHost (sess st') = host /\
       srv (sess st') = srv (sess st) /\
       remote (sess st') = remote (sess st) /\
       world st' = world st)
  /\
  (forall line verb,
     CmdLine.checkValid line = Ok None ->
     CmdLine.Verb line = Ok verb ->
     In verb ["HELO"; "EHLO"] ->
     exists host st',
       CmdLine.Arg line = Ok host /\
       serveLine AddRecipient line st = (Ok Continue, st') /\
       env (sess st') = env (sess st) /\
       helloType (sess st') = verb /\
       helloHost (sess st') = host /\
       srv (sess st') = srv (sess st) /\
       remote (sess st') = remote (sess st) /\
       world st' = world st).
Proof.
  split.
  - intros greeting host. eexists. split; [apply handleHello_result|].
    cbn. repeat split.
  - intros line verb Hvalid Hverb Hin.
    destruct (valid_line_has_verb_and_arg line Hvalid)
      as (v & host & Hv & Harg).
    assert (Hb : in_strings verb ["HELO"; "EHLO"] = true).
    { unfold in_strings. apply existsb_exists. exists verb.
      split; [assumption | apply String.eqb_refl]. }
    exists host. eexists. split; [assumption|]. split.
    + unfold serveLine. run. rewrite Hvalid, Hverb, Hb, Harg.
      rewrite handleHello_result. reflexivity.
    + cbn. repeat split.
Qed.

(** ** Further properties of the session *)

Ltac decide_verbs :=
  cbn [in_strings existsb String.eqb Ascii.eqb Bool.eqb orb andb].

Lemma serveLine_invalid (st : state World Envelope) (line : cmdLine)
  (msg : error) :
  CmdLine.checkValid line = Ok (Some msg) ->
  serveLine AddRecipient line st =
  (Ok Continue, respond st ("500 " ++ msg ++ CRLF)).
Proof.
  intros H. unfold serveLine. run. rewrite H. run. reflexivity.
Qed.

Lemma checkValid_unexpected_argument (line : cmdLine) (verb arg : string) :
  endsInCRLF line ->
  CmdLine.Verb line = Ok verb ->
  In verb ["RSET"; "DATA"; "QUIT"] ->
  CmdLine.Arg line = Ok arg ->
  arg <> EmptyString ->
  CmdLine.checkValid line = Ok (Some "unexpected argument").
Proof.
  intros Hcrlf Hverb Hin Harg Hne.
  apply HasSuffix_CRLF in Hcrlf.
  unfold CmdLine.checkValid. rewrite Hcrlf, Hverb. cbn [negb go_bind].
  replace (in_strings verb ["RSET"; "DATA"; "QUIT"]) with true.
  - rewrite Harg. cbn [go_bind].
    apply String.eqb_neq in Hne. rewrite Hne. reflexivity.
  - symmetry. unfold in_strings. apply existsb_exists. exists verb.
    split; [assumption | apply String.eqb_refl].
Qed.

(** X1. A line that does not end in CRLF (one ending in a bare LF, say)
    is answered 500 whatever it holds, and nothing else happens: the
    session and the caller's world are as before and the loop goes on. *)
Theorem unterminated_line_is_answered_500 (st : state World Envelope)
  (line : cmdLine) :
  ~ endsInCRLF line ->
  serveLine AddRecipient line st =
  (Ok Continue, respond st ("500 line doesn't end in \r\n" ++ CRLF)).
Proof.
  intros Hn. apply serveLine_invalid. apply not_HasSuffix_CRLF in Hn.
  unfold CmdLine.checkValid. rewrite Hn. reflexivity.
Qed.

(** X2. QUIT, RSET or DATA with an argument is not carried out: the line
    is answered 500, the envelope and the rest of the state stay, and the
    loop goes on with the lines that follow; QUIT with an argument does
    not end the session. *)
Theorem verb_with_forbidden_argument_is_not_run
  (st : state World Envelope) (line : cmdLine) (verb arg : string)
  (rest : list cmdLine) :
  endsInCRLF line ->
  CmdLine.Verb line = Ok verb ->
  In verb ["RSET"; "DATA"; "QUIT"] ->
  CmdLine.Arg line = Ok arg ->
  arg <> EmptyString ->
  serveLoop AddRecipient (line :: rest) st =
  serveLoop AddRecipient rest
    (respond st ("500 unexpected argument" ++ CRLF)).
Proof.
  intros Hcrlf Hverb Hin Harg Hne.
  apply serveLoop_continue. apply serveLine_invalid.
  now apply checkValid_unexpected_argument with (verb := verb) (arg := arg).
Qed.

(** X3. A valid QUIT is answered 221 and ends the loop: whatever lines
    follow are never looked at, and the session state is left as it is
    (an open envelope is not cleared). *)
Theorem quit_ends_the_loop (st : state World Envelope) (line : cmdLine)
  (rest : list cmdLine) :
  CmdLine.checkValid line = Ok None ->
  CmdLine.Verb line = Ok "QUIT" ->
  serveLoop AddRecipient (line :: rest) st =
  (Ok tt, respond st ("221 2.0.0 Bye" ++ CRLF)).
Proof.
  intros Hvalid Hverb. cbn [serveLoop]. unfold serveLine. run.
  rewrite Hvalid, Hverb. decide_verbs. run. reflexivity.
Qed.

Lemma serveLine_rset (st : state World Envelope)
  (line : cmdLine) :
  CmdLine.checkValid line = Ok None ->
  CmdLine.Verb line = Ok "RSET" ->
  serveLine AddRecipient line st =
  (Ok Continue,
   {| sess := {| srv := srv (sess st); remote := remote (sess st);
                 env := None;
                 helloType := helloType (sess st);
                 helloHost := helloHost (sess st) |};
      world := world st;
      wire := wire st ++ "250 2.0.0 OK" ++ CRLF |}).
Proof.
  intros Hvalid Hverb. unfold serveLine. run.
  rewrite Hvalid, Hverb. decide_verbs. run. reflexivity.
Qed.

(** X4. NOOP, DATA and every verb the server does not know change
    nothing: they are answered 250, 354 and 502 and the loop goes on.
    DATA needs no envelope and opens no body: the lines that follow it
    are read as commands like any other. *)
Theorem other_verbs_change_nothing (st : state World Envelope)
  (line : cmdLine) (verb : string) (rest : list cmdLine) :
  CmdLine.checkValid line = Ok None ->
  CmdLine.Verb line = Ok verb ->
  ~ In verb ["HELO"; "EHLO"; "QUIT"; "RSET"; "MAIL"; "RCPT"] ->
  serveLine AddRecipient line st =
    (Ok Continue, respond st (plainResponse verb ++ CRLF)) /\
  serveLoop AddRecipient (line :: rest) st =
    serveLoop AddRecipient rest (respond st (plainResponse verb ++ CRLF)).
Proof.
  intros Hvalid Hverb Hnot.
  assert (Hne : forall v, In v ["HELO"; "EHLO"; "QUIT"; "RSET"; "MAIL"; "RCPT"]
                          -> String.eqb verb v = false).
  { intros v Hv. apply String.eqb_neq. intros ->. contradiction. }
  assert (Hturn : serveLine AddRecipient line st =
                  (Ok Continue, respond st (plainResponse verb ++ CRLF))).
  { unfold serveLine, plainResponse. run. rewrite Hvalid, Hverb.
    cbn [in_strings existsb].
    rewrite (Hne "HELO"), (Hne "EHLO"), (Hne "QUIT"), (Hne "RSET"),
      (Hne "MAIL"), (Hne "RCPT") by (cbn; auto 10).
    cbn [orb].
    destruct (String.eqb verb "NOOP"); [run; reflexivity|].
    destruct (String.eqb verb "DATA"); run; reflexivity. }
  split; [exact Hturn|]. now apply serveLoop_continue.
Qed.

(** X5. A valid MAIL command whose argument is not of the form
    [From:<...>] is answered 501 before anything else is looked at: the
    new-mail hook is not called, an open envelope is not touched, and the
    loop goes on. *)
Theorem mail_with_bad_syntax_is_answered_501 (st : state World Envelope)
  (line : cmdLine) (arg : string) :
  CmdLine.checkValid line = Ok None ->
  CmdLine.Verb line = Ok "MAIL" ->
  CmdLine.Arg line = Ok arg ->
  FindStringSubmatch mailFromRE arg = [] ->
  serveLine AddRecipient line st =
  (Ok Continue,
   respond st ("501 5.1.7 Bad sender address syntax" ++ CRLF)).
Proof.
  intros Hvalid Hverb Harg Hm. unfold serveLine. run.
  rewrite Hvalid, Hverb. decide_verbs. rewrite Harg, Hm. run.
  reflexivity.
Qed.

Lemma serveLine_mail_accepted (st : state World Envelope)
  (line : cmdLine) (arg whole email : string)
  (cb : netAddr -> MailAddress -> World ->
        (option Envelope * option error) * World)
  (returned : option Envelope) (w' : World) :
  env (sess st) = None ->
  OnNewMail (srv (sess st)) = Some cb ->
  CmdLine.checkValid line = Ok None ->
  CmdLine.Verb line = Ok "MAIL" ->
  CmdLine.Arg line = Ok arg ->
  FindStringSubmatch mailFromRE arg = [whole; email] ->
  cb (remote (sess st)) email (world st) = ((returned, None), w') ->
  serveLine AddRecipient line st =
  (Ok Continue,
   {| sess := {| srv := srv (sess st); remote := remote (sess st);
                 env := returned;
                 helloType := helloType (sess st);
                 helloHost := helloHost (sess st) |};
      world := w';
      wire := wire st ++ "250 2.1.0 Ok" ++ CRLF |}).
Proof.
  intros He Hcb Hvalid Hverb Harg Hm Hcall.
  unfold serveLine. run. rewrite Hvalid, Hverb. decide_verbs.
  rewrite Harg, Hm. cbn [index nth_error]. run.
  unfold handleMailFrom. run. rewrite He, Hcb. run. rewrite Hcall. run.
  reflexivity.
Qed.

(** X6. A valid RSET clears the envelope in every state, with or without
    a transaction, and is answered 250; the caller's world, where an
    abandoned envelope lives, is not told.  The MAIL FROM that follows
    reaches the new-mail hook again, where without the RSET it would have
    been answered 503. *)
Theorem rset_reopens_the_transaction (st : state World Envelope)
  (rset mail : cmdLine) (arg whole email : string)
  (cb : netAddr -> MailAddress -> World ->
        (option Envelope * option error) * World)
  (returned : option Envelope) (w' : World) :
  OnNewMail (srv (sess st)) = Some cb ->
  CmdLine.checkValid rset = Ok None ->
  CmdLine.Verb rset = Ok "RSET" ->
  CmdLine.checkValid mail = Ok None ->
  CmdLine.Verb mail = Ok "MAIL" ->
  CmdLine.Arg mail = Ok arg ->
  FindStringSubmatch mailFromRE arg = [whole; email] ->
  cb (remote (sess st)) email (world st) = ((returned, None), w') ->
  serveLine AddRecipient rset st =
  (Ok Continue,
   {| sess := {| srv := srv (sess st); remote := remote (sess st);
                 env := None;
                 helloType := helloType (sess st);
                 helloHost := helloHost (sess st) |};
      world := world st;
      wire := wire st ++ "250 2.0.0 OK" ++ CRLF |})
  /\
  serveLoop AddRecipient [rset; mail] st =
  (Ok tt,
   {| sess := {| srv := srv (sess st); remote := remote (sess st);
                 env := returned;
                 helloType := helloType (sess st);
                 helloHost := helloHost (sess st) |};
      world := w';
      wire := wire st ++ "250 2.0.0 OK" ++ CRLF ++
              "250 2.1.0 Ok" ++ CRLF |}).
Proof.
  intros Hcb Hvr Hverb Hvm Hverbm Harg Hm Hcall.
  pose proof (serveLine_rset st rset Hvr Hverb) as Hrset.
  split; [exact Hrset|].
  rewrite (serveLoop_continue st _ rset [mail] Hrset).
  cbn [serveLoop]. unfold bind.
  rewrite (serveLine_mail_accepted _ mail arg whole email cb returned w')
    by (cbn [sess srv remote env world]; auto).
  cbn [sess srv remote env world wire helloType helloHost].
  rewrite append_assoc. reflexivity.
Qed.

(** X7. Without an envelope, a valid MAIL FROM that the new-mail hook
    accepts is answered 250, and the session's envelope becomes whatever
    the hook returned, a nil envelope included; the caller's world is
    what the hook made of it. *)
Theorem accepted_mail_from_opens_the_envelope (st : state World Envelope)
  (line : cmdLine) (arg whole email : string)
  (cb : netAddr -> MailAddress -> World ->
        (option Envelope * option error) * World)
  (returned : option Envelope) (w' : World) :
  env (sess st) = None ->
  OnNewMail (srv (sess st)) = Some cb ->
  CmdLine.checkValid line = Ok None ->
  CmdLine.Verb line = Ok "MAIL" ->
  CmdLine.Arg line = Ok arg ->
  FindStringSubmatch mailFromRE arg = [whole; email] ->
  cb (remote (sess st)) email (world st) = ((returned, None), w') ->
  serveLine AddRecipient line st =
  (Ok Continue,
   {| sess := {| srv := srv (sess st); remote := remote (sess st);
                 env := returned;
                 helloType := helloType (sess st);
                 helloHost := helloHost (sess st) |};
      world := w';
      wire := wire st ++ "250 2.1.0 Ok" ++ CRLF |}).
Proof.
  intros He Hcb Hvalid Hverb Harg Hm Hcall.
  now apply serveLine_mail_accepted with (arg := arg) (whole := whole)
                                         (email := email) (cb := cb).
Qed.

Lemma serveLine_rcpt_matched (st : state World Envelope)
  (line : cmdLine) (arg whole rcpt : string) (e : Envelope)
  (err : option error) (w' : World) :
  env (sess st) = Some e ->
  CmdLine.checkValid line = Ok None ->
  CmdLine.Verb line = Ok "RCPT" ->
  CmdLine.Arg line = Ok arg ->
  FindStringSubmatch rcptToRE arg = [whole; rcpt] ->
  AddRecipient e rcpt (world st) = (err, w') ->
  serveLine AddRecipient line st =
  (Ok Continue,
   {| sess := sess st;
      world := w';
      wire := wire st ++
              match err with
              | Some msg => "550 bad recipient: " ++ msg
              | None => "250 2.1.0 Ok"
              end ++ CRLF |}).
Proof.
  intros He Hvalid Hverb Harg Hm Hadd.
  rewrite (serveLine_rcpt st line Hvalid Hverb).
  unfold handleRcpt. run. rewrite He, Harg, Hm. cbn [index nth_error].
  run. rewrite Hadd. destruct err as [msg|]; run; reflexivity.
Qed.

(** X8. With an envelope active, a valid RCPT whose argument matches
    [To:<...>] hands the address between the brackets to the envelope's
    [AddRecipient]: 250 when it accepts, 550 with its message when it
    refuses.  In both cases the session keeps its envelope and the loop
    goes on. *)
Theorem rcpt_is_handed_to_the_envelope (st : state World Envelope)
  (line : cmdLine) (arg whole rcpt : string) (e : Envelope)
  (err : option error) (w' : World) :
  env (sess st) = Some e ->
  CmdLine.checkValid line = Ok None ->
  CmdLine.Verb line = Ok "RCPT" ->
  CmdLine.Arg line = Ok arg ->
  FindStringSubmatch rcptToRE arg = [whole; rcpt] ->
  AddRecipient e rcpt (world st) = (err, w') ->
  serveLine AddRecipient line st =
  (Ok Continue,
   {| sess := sess st;
      world := w';
      wire := wire st ++
              match err with
              | Some msg => "550 bad recipient: " ++ msg
              | None => "250 2.1.0 Ok"
              end ++ CRLF |}).
Proof.
  intros He Hvalid Hverb Harg Hm Hadd.
  now apply serveLine_rcpt_matched with (arg := arg) (whole := whole)
                                        (rcpt := rcpt) (e := e).
Qed.

(** *** The one panic *)

Lemma checkValid_of_terminated (line : cmdLine) :
  strings.HasSuffix line CRLF = true ->
  exists verb arg,
    CmdLine.Verb line = Ok verb /\ CmdLine.Arg line = Ok arg /\
    (CmdLine.checkValid line = Ok None \/
     CmdLine.checkValid line = Ok (Some "unexpected argument")).
Proof.
  intros H. apply HasSuffix_CRLF in H. destruct H as [body ->].
  destruct (Verb_Arg_of_body body) as [Hv Ha].
  eexists. eexists. split; [exact Hv|]. split; [exact Ha|].
  rewrite checkValid_of_body. destruct (_ && _); auto.
Qed.

Lemma serveLine_panic_inv (st st' : state World Envelope) (line : cmdLine)
  (e : runtimeError) :
  serveLine AddRecipient line st = (Panic e, st') ->
  CmdLine.checkValid line = Ok None /\
  CmdLine.Verb line = Ok "RCPT" /\
  (exists ev, env (sess st) = Some ev) /\
  (exists arg, CmdLine.Arg line = Ok arg /\
               FindStringSubmatch rcptToRE arg = []) /\
  e = IndexOutOfRange /\
  st' = respond st ("501 5.1.7 Bad sender address syntax" ++ CRLF).
Proof.
  intros H. destruct (strings.HasSuffix line CRLF) eqn:Hsuf.
  - destruct (checkValid_of_terminated line Hsuf)
      as (verb & arg & Hv & Ha & [Hcv | Hcv]).
    + destruct st as [[sv rm ev ht hh] w out].
      unfold serveLine, handleHello, handleMailFrom, handleRcpt in H.
      rewrite Hcv, Hv, Ha in H. run_in H.
      destruct (FindStringSubmatch_shape mailFromRE arg)
        as [Hm | (wm & gm & Hm)];
        destruct (FindStringSubmatch_shape rcptToRE arg)
          as [Hr | (wr & gr & Hr)];
        rewrite Hm, Hr in H; cbn [index nth_error] in H; run_in H;
        split_cases H; inversion H; subst;
        repeat match goal with
               | E : String.eqb _ _ = true |- _ =>
                   apply String.eqb_eq in E; subst
               end;
        cbn [sess world wire srv remote env];
        repeat split; eauto.
    + rewrite (serveLine_invalid st line _ Hcv) in H. discriminate.
  - assert (Hcv : CmdLine.checkValid line =
                  Ok (Some "line doesn't end in \r\n")).
    { unfold CmdLine.checkValid. rewrite Hsuf. reflexivity. }
    rewrite (serveLine_invalid st line _ Hcv) in H. discriminate.
Qed.

(** X9. A turn of the loop panics in one situation only: the line is a
    valid RCPT, an envelope is active, and the argument does not match
    [To:<...>].  The panic is the index error of [m[1]], and it comes
    after the 501 has been sent.  Every other line, valid or not, in
    every state, is handled without a panic. *)
Theorem turn_panics_only_on_unmatched_rcpt (st st' : state World Envelope)
  (line : cmdLine) (e : runtimeError) :
  serveLine AddRecipient line st = (Panic e, st') <->
  (CmdLine.checkValid line = Ok None /\
   CmdLine.Verb line = Ok "RCPT" /\
   (exists ev, env (sess st) = Some ev) /\
   (exists arg, CmdLine.Arg line = Ok arg /\
                FindStringSubmatch rcptToRE arg = []) /\
   e = IndexOutOfRange /\
   st' = respond st ("501 5.1.7 Bad sender address syntax" ++ CRLF)).
Proof.
  split.
  - apply serveLine_panic_inv.
  - intros (Hvalid & Hverb & (ev & He) & (arg & Harg & Hm) & -> & ->).
    rewrite (serveLine_rcpt st line Hvalid Hverb).
    now rewrite (handleRcpt_bad_syntax st ev line arg He Harg Hm).
Qed.

Lemma serveLoop_without_hook (lines : list cmdLine) :
  forall st : state World Envelope,
    OnNewMail (srv (sess st)) = None ->
    env (sess st) = None ->
    fst (serveLoop AddRecipient lines st) = Ok tt /\
    env (sess (snd (serveLoop AddRecipient lines st))) = None.
Proof.
  induction lines as [|line rest IH]; intros st Hhook He.
  - cbn. auto.
  - cbn [serveLoop]. unfold bind.
    destruct (serveLine AddRecipient line st) as [[ctl|e] st'] eqn:Hturn.
    + destruct (serveLine_frame st st' line _ Hturn) as (Hs & _ & He').
      specialize (He' Hhook He).
      destruct ctl.
      * apply IH; [now rewrite Hs | assumption].
      * cbn. auto.
    + apply serveLine_panic_inv in Hturn.
      destruct Hturn as (_ & _ & (ev & Hev) & _). congruence.
Qed.

(** X10. On a server without a new-mail hook a session cannot panic:
    whatever bytes the client sends, [serve] returns normally, and the
    session never holds an envelope. *)
Theorem serve_without_hook_never_panics (st : state World Envelope)
  (input : string) :
  OnNewMail (srv (sess st)) = None ->
  env (sess st) = None ->
  fst (serve AddRecipient input st) = Ok tt /\
  env (sess (snd (serve AddRecipient input st))) = None.
Proof.
  intros Hhook He. unfold serve. run.
  destruct (OnNewConnection (srv (sess st))) as [onc|].
  - run. destruct (onc (remote (sess st)) (world st)) as [[msg|] w'];
      run.
    + cbn. auto.
    + apply serveLoop_without_hook; assumption.
  - run. apply serveLoop_without_hook; assumption.
Qed.

(** *** What a turn can change *)

Lemma serveLine_effects (st st' : state World Envelope) (line : cmdLine)
  (r : go loopControl) :
  serveLine AddRecipient line st = (r, st') ->
  (exists resp, wire st' = wire st ++ resp) /\
  (CmdLine.Verb line <> Ok "MAIL" -> CmdLine.Verb line <> Ok "RCPT" ->
   world st' = world st) /\
  (CmdLine.Verb line <> Ok "MAIL" -> CmdLine.Verb line <> Ok "RSET" ->
   env (sess st') = env (sess st)) /\
  (CmdLine.Verb line <> Ok "HELO" -> CmdLine.Verb line <> Ok "EHLO" ->
   helloType (sess st') = helloType (sess st) /\
   helloHost (sess st') = helloHost (sess st)).
Proof.
  destruct st as [[sv rm ev ht hh] w out].
  unfold serveLine, handleHello, handleMailFrom, handleRcpt.
  intros H. run_in H. split_cases H; inversion H; subst;
    repeat match goal with
           | E : String.eqb _ _ = true |- _ =>
               apply String.eqb_eq in E; subst
           | E : in_strings _ _ = true |- _ =>
               unfold in_strings in E; cbn [existsb] in E;
               rewrite orb_false_r in E; apply orb_true_iff in E;
               destruct E as [E | E]
           end;
    cbn [sess world wire srv remote env helloType helloHost];
    (split;
     [ first [ now (exists EmptyString; rewrite append_nil_r)
             | now (eexists; rewrite ?append_assoc; reflexivity) ]
     | repeat split; intros; congruence ]).
Qed.

(** X11. What one turn of the loop can change.  The bytes written are
    only added to; the server and the remote address of the session never
    change; the caller's world changes on MAIL and RCPT only; the envelope
    on MAIL and RSET only; the hello fields on HELO and EHLO only. *)
Theorem turn_changes_only_what_its_verb_owns
  (st st' : state World Envelope) (line : cmdLine) (r : go loopControl) :
  serveLine AddRecipient line st = (r, st') ->
  (exists resp, wire st' = wire st ++ resp) /\
  srv (sess st') = srv (sess st) /\
  remote (sess st') = remote (sess st) /\
  (CmdLine.Verb line <> Ok "MAIL" -> CmdLine.Verb line <> Ok "RCPT" ->
   world st' = world st) /\
  (CmdLine.Verb line <> Ok "MAIL" -> CmdLine.Verb line <> Ok "RSET" ->
   env (sess st') = env (sess st)) /\
  (CmdLine.Verb line <> Ok "HELO" -> CmdLine.Verb line <> Ok "EHLO" ->
   helloType (sess st') = helloType (sess st) /\
   helloHost (sess st') = helloHost (sess st)).
Proof.
  intros H.
  destruct (serveLine_effects st st' line r H) as (Hw & Hworld & He & Hh).
  destruct (serveLine_frame st st' line r H) as (Hs & Hr & _).
  repeat split; try assumption; now apply Hh.
Qed.

(** X12. The response to a hello does not depend on the command: HELO
    is answered with the same extension list as EHLO, and the host the
    client names is recorded but not echoed. *)
Theorem hello_response_ignores_greeting_and_host
  (st : state World Envelope) (greeting1 host1 greeting2 host2 : string) :
  wire (snd (handleHello greeting1 host1 st)) =
  wire (snd (handleHello greeting2 host2 st)).
Proof.
  now rewrite !handleHello_result.
Qed.

(** X13. A new-mail hook that returns neither an envelope nor an error:
    the MAIL command is answered 250, yet no transaction is open, and the
    RCPT that follows is answered 503. *)
Theorem accepted_mail_without_envelope_opens_nothing
  (st : state World Envelope) (mail rcpt : cmdLine)
  (arg whole email : string)
  (cb : netAddr -> MailAddress -> World ->
        (option Envelope * option error) * World)
  (w' : World) :
  env (sess st) = None ->
  OnNewMail (srv (sess st)) = Some cb ->
  CmdLine.checkValid mail = Ok None ->
  CmdLine.Verb mail = Ok "MAIL" ->
  CmdLine.Arg mail = Ok arg ->
  FindStringSubmatch mailFromRE arg = [whole; email] ->
  cb (remote (sess st)) email (world st) = ((None, None), w') ->
  CmdLine.checkValid rcpt = Ok None ->
  CmdLine.Verb rcpt = Ok "RCPT" ->
  serveLoop AddRecipient [mail; rcpt] st =
  (Ok tt,
   {| sess := sess st;
      world := w';
      wire := wire st ++ "250 2.1.0 Ok" ++ CRLF ++
              "503 5.5.1 Error: need MAIL command" ++ CRLF |}).
Proof.
  intros He Hcb Hvalid Hverb Harg Hm Hcall Hvalid' Hverb'.
  rewrite (serveLoop_continue st _ mail [rcpt]
             (serveLine_mail_accepted st mail arg whole email cb None w'
                He Hcb Hvalid Hverb Harg Hm Hcall)).
  cbn [serveLoop]. unfold bind.
  rewrite (serveLine_rcpt _ rcpt Hvalid' Hverb').
  rewrite handleRcpt_without_envelope by reflexivity.
  run. destruct st as [[sv rm ev ht hh] w out].
  cbn [sess world wire srv remote env helloType helloHost] in *.
  subst ev. rewrite !append_assoc. reflexivity.
Qed.

(** *** The session as a whole *)

Lemma serveLoop_extends_wire (lines : list cmdLine) :
  forall st : state World Envelope,
    exists resp,
      wire (snd (serveLoop AddRecipient lines st)) = wire st ++ resp.
Proof.
  induction lines as [|line rest IH]; intros st.
  - exists EmptyString. cbn. now rewrite append_nil_r.
  - cbn [serveLoop]. unfold bind.
    destruct (serveLine AddRecipient line st) as [[ctl|e] st'] eqn:Hturn;
      destruct (serveLine_effects st st' line _ Hturn) as ([r1 Hr1] & _).
    + destruct ctl.
      * destruct (IH st') as [r2 Hr2]. exists (r1 ++ r2).
        now rewrite Hr2, Hr1, append_assoc.
      * exists r1. exact Hr1.
    + exists r1. exact Hr1.
Qed.

(** X14. When the connection hook refuses the connection, [serve] returns
    at once: no banner and no other byte is written, no line of the
    client is read, and the session fields are as [newSession] left
    them. *)
Theorem refused_connection_gets_nothing (st : state World Envelope)
  (input : string)
  (onc : netAddr -> World -> option error * World)
  (msg : error) (w' : World) :
  OnNewConnection (srv (sess st)) = Some onc ->
  onc (remote (sess st)) (world st) = (Some msg, w') ->
  serve AddRecipient input st =
  (Ok tt, {| sess := sess st; world := w'; wire := wire st |}).
Proof.
  intros Honc Hcall. unfold serve. run. rewrite Honc. run.
  rewrite Hcall. run. reflexivity.
Qed.

(** X15. When there is no connection hook, the first bytes a session
    writes are the banner, [220], the host name and [ESMTP gosmtpd],
    whatever the client sends; the host name is the server's [Hostname]
    when that is set and the machine's otherwise. *)
Theorem banner_comes_first (st : state World Envelope) (input : string) :
  OnNewConnection (srv (sess st)) = None ->
  exists rest,
    wire (snd (serve AddRecipient input st)) =
    wire st ++
    "220 " ++
    (if String.eqb (Hostname (srv (sess st))) EmptyString
     then system_hostname else Hostname (srv (sess st))) ++
    " ESMTP gosmtpd" ++ CRLF ++ rest.
Proof.
  intros Honc. unfold serve. run. rewrite Honc. run.
  match goal with
  | |- context [serveLoop AddRecipient ?ls ?s0] =>
      destruct (serveLoop_extends_wire ls s0) as [rest Hrest]
  end.
  exists rest. rewrite Hrest. cbn [wire]. unfold hostname.
  destruct (String.eqb (Hostname (srv (sess st))) EmptyString);
    cbn [negb]; rewrite !append_assoc; reflexivity.
Qed.

End SessionProperties.

(** ** Reading lines *)

Lemma readLines_without_LF (partial : string) :
  has_byte LF partial = false ->
  forall pending, readLines pending partial = [].
Proof.
  induction partial as [|c partial IH]; intros Hno pending.
  - reflexivity.
  - unfold has_byte in Hno. cbn [list_ascii_of_string existsb] in Hno.
    apply orb_false_iff in Hno.
    destruct Hno as [Hc Hno]. cbn [readLines].
    destruct (len (pending ++ String c EmptyString) >? bufSize);
      [reflexivity|].
    rewrite Ascii.eqb_sym, Hc. now apply IH.
Qed.

Lemma readLines_append_partial (input partial : string) :
  has_byte LF partial = false ->
  forall pending,
    readLines pending (input ++ partial) = readLines pending input.
Proof.
  intros Hno. induction input as [|c input IH]; intros pending.
  - cbn [append]. rewrite readLines_without_LF by assumption.
    reflexivity.
  - cbn [append readLines].
    destruct (len (pending ++ String c EmptyString) >? bufSize);
      [reflexivity|].
    destruct (Ascii.eqb c LF); now rewrite IH.
Qed.

Lemma readLines_fill (s : string) :
  has_byte LF s = false ->
  forall pending rest,
    len pending + len s <= bufSize ->
    readLines pending (s ++ rest) = readLines (pending ++ s) rest.
Proof.
  induction s as [|c s IH]; intros Hno pending rest Hlen.
  - cbn [append]. now rewrite append_nil_r.
  - unfold has_byte in Hno. cbn [list_ascii_of_string existsb] in Hno.
    apply orb_false_iff in Hno.
    destruct Hno as [Hc Hno]. cbn [append readLines].
    assert (Hl : len (pending ++ String c EmptyString) = len pending + 1)
      by (rewrite len_append; reflexivity).
    assert (Hs : len (String c s) = 1 + len s)
      by (unfold len; cbn [String.length]; lia).
    pose proof (len_nonneg s).
    replace (len (pending ++ String c EmptyString) >? bufSize) with false
      by (symmetry; rewrite Z.gtb_ltb; apply Z.ltb_ge; lia).
    rewrite Ascii.eqb_sym, Hc.
    rewrite (IH Hno) by lia.
    now rewrite append_assoc.
Qed.

Lemma concat_cons (l : string) (ls : list string) :
  exists tail,
    String.concat EmptyString (l :: ls) = l ++ tail /\
    tail = String.concat EmptyString ls.
Proof.
  exists (String.concat EmptyString ls). split; [|reflexivity].
  destruct ls as [|l' ls]; cbn [String.concat].
  - now rewrite append_nil_r.
  - reflexivity.
Qed.

Lemma readLines_complete (lines : list string) :
  forallb completeLine lines = true ->
  readLines EmptyString (String.concat EmptyString lines) = lines.
Proof.
  induction lines as [|l ls IH]; intros Hok.
  - reflexivity.
  - cbn [forallb] in Hok. apply andb_true_iff in Hok.
    destruct Hok as [Hl Hok]. unfold completeLine in Hl.
    destruct (cut LF l) as [body [after|]] eqn:Hcut; [|discriminate].
    apply andb_true_iff in Hl. destruct Hl as [Hafter Hlen].
    apply String.eqb_eq in Hafter. subst after.
    apply Z.leb_le in Hlen.
    pose proof (Index_cut LF l) as Hc. rewrite Hcut in Hc.
    cbn [fst snd] in Hc. destruct Hc as [Hl _].
    pose proof (cut_before_has_no_byte LF l) as Hno.
    rewrite Hcut in Hno. cbn [fst] in Hno.
    destruct (concat_cons l ls) as (tail & -> & ->).
    assert (Hll : len l = len body + 1)
      by (rewrite Hl, len_append; reflexivity).
    rewrite Hl, append_assoc.
    rewrite (readLines_fill body Hno)
      by (change (len EmptyString) with 0; lia).
    cbn [append readLines]. rewrite <- Hl.
    replace (len l >? bufSize) with false
      by (symmetry; rewrite Z.gtb_ltb; apply Z.ltb_ge; lia).
    rewrite Ascii.eqb_refl. now rewrite (IH Hok).
Qed.

Section ReadingProperties.
Context {P : Platform}.
Variable World : Type.
Variable Envelope : Type.
Variable AddRecipient :
  Envelope -> MailAddress -> World -> option error * World.

(** X16. Bytes after the last LF are never acted on: a session that
    receives [input] followed by text without an LF behaves exactly like
    one that receives [input] alone.  A command is carried out only once
    its line feed has arrived. *)
Theorem unterminated_tail_is_ignored (st : state World Envelope)
  (input partial : string) :
  has_byte LF partial = false ->
  serve AddRecipient (input ++ partial) st = serve AddRecipient input st.
Proof.
  intros Hno. unfold serve.
  now rewrite (readLines_append_partial input partial Hno).
Qed.

(** X17. A line that does not fit the 4096 bytes of the reader ends the
    session without a response: when the first 4096 bytes the client
    sends hold no LF, nothing the client sent is carried out, whatever
    comes later. *)
Theorem overlong_first_line_ends_the_session (st : state World Envelope)
  (long rest : string) :
  has_byte LF long = false ->
  len long = bufSize ->
  serve AddRecipient (long ++ rest) st =
  serve AddRecipient EmptyString st.
Proof.
  intros Hno Hlen. unfold serve.
  rewrite (readLines_fill long Hno EmptyString rest)
    by (change (len EmptyString) with 0; lia).
  cbn [append]. destruct rest as [|c rest]; [reflexivity|].
  cbn [readLines]. rewrite len_append, Hlen. reflexivity.
Qed.

(** X18. Input made of complete lines, each ending in its only LF and
    within the 4096 bytes of the reader, is read back as exactly those
    lines: without a connection hook, the session writes its banner and
    then runs the loop on them in the order sent. *)
Theorem complete_lines_are_read_back (st : state World Envelope)
  (lines : list string) :
  OnNewConnection (srv (sess st)) = None ->
  forallb completeLine lines = true ->
  serve AddRecipient (String.concat EmptyString lines) st =
  serveLoop AddRecipient lines
    (respond st ("220 " ++ hostname (srv (sess st)) ++
                 " ESMTP gosmtpd" ++ CRLF)).
Proof.
  intros Honc Hok. unfold serve.
  cbv beta iota zeta delta
    [bind ret getSession sendf Fprintf Flush respond].
  cbn [sess world wire]. rewrite Honc.
  cbv beta iota zeta delta [bind ret].
  now rewrite (readLines_complete lines Hok).
Qed.

End ReadingProperties.

(** ** The address patterns *)

Lemma matchKeyword_accepts (kw : string) :
  forall s, matchKeyword (mapBytes lowerByte kw) (kw ++ s) = Some s.
Proof.
  induction kw as [|c kw IH]; intros s; cbn [mapBytes append matchKeyword].
  - reflexivity.
  - rewrite Ascii.eqb_refl. apply IH.
Qed.

Lemma matchKeyword_inv (k : string) :
  forall s s1,
    matchKeyword k s = Some s1 ->
    exists kw, s = kw ++ s1 /\ mapBytes lowerByte kw = k.
Proof.
  induction k as [|x k IH]; intros s s1 H; cbn [matchKeyword] in H.
  - inversion H. exists EmptyString. split; reflexivity.
  - destruct s as [|c s]; [discriminate|].
    destruct (Ascii.eqb (lowerByte c) x) eqn:E; [|discriminate].
    apply Ascii.eqb_eq in E. destruct (IH s s1 H) as (kw & -> & Hk).
    exists (String c kw). split; [reflexivity|].
    cbn [mapBytes]. now rewrite E, Hk.
Qed.

Lemma skipSpaces_accepts (ws s : string) :
  allBytes isReSpace ws = true ->
  skipSpaces (ws ++ String "<" s) = String "<" s.
Proof.
  induction ws as [|c ws IH]; intros H.
  - reflexivity.
  - unfold allBytes in H. cbn [list_ascii_of_string forallb] in H.
    apply andb_true_iff in H. destruct H as [Hc H].
    cbn [append skipSpaces]. rewrite Hc. now apply IH.
Qed.

Lemma skipSpaces_inv (s : string) :
  exists ws, s = ws ++ skipSpaces s /\ allBytes isReSpace ws = true.
Proof.
  induction s as [|c s (ws & Hs & Hws)].
  - exists EmptyString. split; reflexivity.
  - cbn [skipSpaces]. destruct (isReSpace c) eqn:E.
    + exists (String c ws). split.
      * cbn [append]. now rewrite <- Hs.
      * unfold allBytes in *. cbn [list_ascii_of_string forallb].
        now rewrite E, Hws.
    + exists EmptyString. split; reflexivity.
Qed.

Lemma has_byte_cons (c x : ascii) (s : string) :
  has_byte c (String x s) = false <->
  Ascii.eqb x c = false /\ has_byte c s = false.
Proof.
  unfold has_byte. cbn [list_ascii_of_string existsb].
  rewrite orb_false_iff, (Ascii.eqb_sym c x). reflexivity.
Qed.

Lemma lazyUpToGt_accepts (g rest : string) :
  has_byte ">" g = false ->
  has_byte LF g = false ->
  lazyUpToGt (g ++ String ">" rest) = Some (g, rest).
Proof.
  induction g as [|c g IH]; intros Hgt Hlf.
  - reflexivity.
  - apply has_byte_cons in Hgt. apply has_byte_cons in Hlf.
    destruct Hgt as [Hc Hgt]. destruct Hlf as [Hc' Hlf].
    cbn [append lazyUpToGt]. rewrite Hc, Hc', (IH Hgt Hlf).
    reflexivity.
Qed.

Lemma lazyUpToGt_inv (s : string) :
  forall g rest,
    lazyUpToGt s = Some (g, rest) ->
    s = g ++ String ">" rest /\
    has_byte ">" g = false /\ has_byte LF g = false.
Proof.
  induction s as [|c s IH]; intros g rest H; cbn [lazyUpToGt] in H.
  - discriminate.
  - destruct (Ascii.eqb c ">") eqn:Egt.
    + inversion H; subst. apply Ascii.eqb_eq in Egt. subst c.
      repeat split.
    + destruct (Ascii.eqb c LF) eqn:Elf; [discriminate|].
      destruct (lazyUpToGt s) as [[g' rest']|]; [|discriminate].
      inversion H; subst.
      destruct (IH g' rest eq_refl) as (-> & Hgt & Hlf).
      repeat split; apply has_byte_cons; auto.
Qed.

Lemma whole_match (a b : string) :
  substring 0 (String.length (a ++ b) - String.length b) (a ++ b) = a.
Proof.
  replace (String.length (a ++ b) - String.length b)%nat
    with (String.length a).
  - apply substring_front.
  - pose proof (len_append a b) as H. unfold len in H. lia.
Qed.

Lemma FindStringSubmatch_accepts (re : Regexp)
  (kw ws addr rest : string) :
  mapBytes lowerByte kw = keyword re ->
  allBytes isReSpace ws = true ->
  has_byte ">" addr = false ->
  has_byte LF addr = false ->
  (groupMayBeEmpty re = false -> addr <> EmptyString) ->
  FindStringSubmatch re (kw ++ ws ++ String "<" (addr ++ String ">" rest)) =
  [kw ++ ws ++ String "<" (addr ++ String ">" EmptyString); addr].
Proof.
  intros Hkw Hws Hgt Hlf Hne. unfold FindStringSubmatch.
  rewrite <- Hkw, matchKeyword_accepts, (skipSpaces_accepts ws _ Hws).
  assert (Hg : matchGroup (groupMayBeEmpty re) (addr ++ String ">" rest)
               = Some (addr, rest)).
  { unfold matchGroup. destruct (groupMayBeEmpty re).
    - now apply lazyUpToGt_accepts.
    - destruct addr as [|c addr]; [now contradiction Hne|].
      apply has_byte_cons in Hgt. apply has_byte_cons in Hlf.
      destruct Hgt as [_ Hgt]. destruct Hlf as [Hc Hlf].
      cbn [append]. rewrite Hc, (lazyUpToGt_accepts addr rest Hgt Hlf).
      reflexivity. }
  rewrite Hg. f_equal.
  replace (kw ++ ws ++ String "<" (addr ++ String ">" rest))
    with ((kw ++ ws ++ String "<" (addr ++ String ">" EmptyString)) ++ rest).
  - apply whole_match.
  - rewrite !append_assoc. cbn [append]. rewrite append_assoc.
    reflexivity.
Qed.

(** X19. What the two patterns accept.  A keyword in any mix of cases,
    any run of white space, and an address between [<] and [>] that holds
    no [>] and no LF always match, and the group is the address, byte for
    byte; whatever follows the [>] (parameters such as [SIZE=...]) is
    ignored.  The empty address is accepted by [mailFromRE] only. *)
Theorem pattern_accepts_bracketed_address (re : Regexp)
  (kw ws addr rest : string) :
  mapBytes lowerByte kw = keyword re ->
  allBytes isReSpace ws = true ->
  has_byte ">" addr = false ->
  has_byte LF addr = false ->
  (groupMayBeEmpty re = false -> addr <> EmptyString) ->
  FindStringSubmatch re (kw ++ ws ++ String "<" (addr ++ String ">" rest)) =
  [kw ++ ws ++ String "<" (addr ++ String ">" EmptyString); addr].
Proof.
  intros. now apply FindStringSubmatch_accepts.
Qed.

(** X20. What a match of either pattern means.  The text begins with the
    keyword in some mix of cases, white space, [<], the group and [>];
    the whole match is exactly that prefix; the group holds no LF; the
    group of [mailFromRE] holds no [>]; the group of [rcptToRE] is never
    empty. *)
Theorem pattern_match_is_a_bracketed_address (re : Regexp)
  (s whole group : string) :
  FindStringSubmatch re s = [whole; group] ->
  exists kw ws rest,
    s = whole ++ rest /\
    whole = kw ++ ws ++ String "<" (group ++ String ">" EmptyString) /\
    mapBytes lowerByte kw = keyword re /\
    allBytes isReSpace ws = true /\
    has_byte LF group = false /\
    (groupMayBeEmpty re = true -> has_byte ">" group = false) /\
    (groupMayBeEmpty re = false -> group <> EmptyString).
Proof.
  unfold FindStringSubmatch. intros H.
  destruct (matchKeyword (keyword re) s) as [s1|] eqn:Hk; [|discriminate].
  destruct (matchKeyword_inv _ _ _ Hk) as (kw & -> & Hkw).
  destruct (skipSpaces_inv s1) as (ws & Hs1 & Hws).
  destruct (skipSpaces s1) as [|c s2]; [discriminate|].
  destruct (Ascii.eqb c "<") eqn:Ec.
  2:{ destruct c as [[] [] [] [] [] [] [] []]; discriminate. }
  apply Ascii.eqb_eq in Ec. subst c.
  destruct (matchGroup (groupMayBeEmpty re) s2) as [[g rest]|] eqn:Hg;
    [|discriminate].
  assert (Hshape : s2 = g ++ String ">" rest /\ has_byte LF g = false /\
                   (groupMayBeEmpty re = true -> has_byte ">" g = false) /\
                   (groupMayBeEmpty re = false -> g <> EmptyString)).
  { unfold matchGroup in Hg. destruct (groupMayBeEmpty re).
    - destruct (lazyUpToGt_inv _ _ _ Hg) as (-> & Hgt & Hlf).
      repeat split; auto. discriminate.
    - destruct s2 as [|c s2]; [discriminate|].
      destruct (Ascii.eqb c LF) eqn:Elf; [discriminate|].
      destruct (lazyUpToGt s2) as [[g' rest']|] eqn:Hl; [|discriminate].
      inversion Hg; subst.
      destruct (lazyUpToGt_inv _ _ _ Hl) as (-> & Hgt & Hlf).
      repeat split; try discriminate.
      apply has_byte_cons. auto. }
  destruct Hshape as (-> & Hlf & Hgt & Hne).
  assert (Hall : kw ++ s1 =
                 (kw ++ ws ++ String "<" (g ++ String ">" EmptyString))
                 ++ rest).
  { rewrite Hs1, !append_assoc. cbn [append]. rewrite append_assoc.
    reflexivity. }
  rewrite Hall, whole_match in H. inversion H; subst.
  exists kw, ws, rest. repeat split; assumption.
Qed.

(** ** Command Line: edges *)

Lemma allBytes_append (f : ascii -> bool) (a b : string) :
  allBytes f (a ++ b) = allBytes f a && allBytes f b.
Proof.
  unfold allBytes. induction a as [|c a IH]; cbn [append list_ascii_of_string forallb].
  - reflexivity.
  - rewrite IH. apply andb_assoc.
Qed.

Lemma upperByte_is_not_lower (c : ascii) : isLowerByte (upperByte c) = false.
Proof. destruct c as [[] [] [] [] [] [] [] []]; reflexivity. Qed.

Lemma upperByte_space (c : ascii) :
  Ascii.eqb " " (upperByte c) = Ascii.eqb " " c.
Proof. destruct c as [[] [] [] [] [] [] [] []]; reflexivity. Qed.

Lemma mapBytes_upper_facts (s : string) :
  allBytes (fun c => negb (isLowerByte c)) (mapBytes upperByte s) = true /\
  has_byte " " (mapBytes upperByte s) = has_byte " " s /\
  len (mapBytes upperByte s) = len s.
Proof.
  unfold allBytes, has_byte, len. induction s as [|c s (IH1 & IH2 & IH3)].
  - repeat split.
  - cbn [mapBytes list_ascii_of_string forallb existsb String.length].
    rewrite upperByte_is_not_lower, upperByte_space, IH1, IH2.
    repeat split. lia.
Qed.

Section LexerEdges.
Context {P : Platform}.

(** X21. The accessors on a line of any shape.  [Verb] is the text before
    the first space in upper case, and without a space the line less its
    last two bytes; [Arg] is the text after the first space less its last
    two bytes, trimmed: both cut two bytes off without looking at them.
    They panic exactly when those two bytes are not there: [Verb] on a
    line of fewer than two bytes without a space, [Arg] when fewer than
    two bytes follow the first space. *)
Theorem accessors_on_any_line (cl : cmdLine) :
  match cut " " cl with
  | (tok, Some post) =>
      CmdLine.Verb cl = Ok (strings.ToUpper tok) /\
      CmdLine.Arg cl =
      if len post <? 2 then Panic SliceBoundsOutOfRange
      else Ok (strings.TrimRightSpace
                 (substring 0 (String.length post - 2) post))
  | (_, None) =>
      CmdLine.Arg cl = Ok EmptyString /\
      CmdLine.Verb cl =
      if len cl <? 2 then Panic SliceBoundsOutOfRange
      else Ok (strings.ToUpper (substring 0 (String.length cl - 2) cl))
  end.
Proof.
  unfold CmdLine.Verb, CmdLine.Arg.
  pose proof (Index_cut " " cl) as Hc.
  destruct (cut " " cl) as [tok [post|]]; cbn [fst snd] in Hc.
  - destruct Hc as [Hcl Hi]. rewrite Hi.
    pose proof (len_nonneg tok). pose proof (len_nonneg post).
    replace (len tok =? -1) with false by (symmetry; apply Z.eqb_neq; lia).
    cbn [negb]. split.
    + rewrite Hcl. rewrite slice_front. reflexivity.
    + assert (Hlen : len cl = len tok + 1 + len post).
      { rewrite Hcl, len_append. unfold len. cbn [String.length]. lia. }
      unfold slice. rewrite Hlen.
      destruct (len post <? 2) eqn:Hshort.
      * apply Z.ltb_lt in Hshort.
        replace ((0 <=? len tok + 1) &&
                 (len tok + 1 <=? len tok + 1 + len post - 2) &&
                 (len tok + 1 + len post - 2 <=? len tok + 1 + len post))
          with false; [reflexivity|].
        symmetry. apply andb_false_iff. left. apply andb_false_iff.
        right. apply Z.leb_gt. lia.
      * apply Z.ltb_ge in Hshort.
        replace ((0 <=? len tok + 1) &&
                 (len tok + 1 <=? len tok + 1 + len post - 2) &&
                 (len tok + 1 + len post - 2 <=? len tok + 1 + len post))
          with true
          by (symmetry; rewrite !andb_true_iff, !Z.leb_le; lia).
        cbn [go_bind]. do 2 f_equal.
        replace (Z.to_nat (len tok + 1 + len post - 2 - (len tok + 1)))
          with (String.length post - 2)%nat by (unfold len in *; lia).
        replace (Z.to_nat (len tok + 1))
          with (String.length (tok ++ " "))
          by (pose proof (len_append tok " ") as L; unfold len in *;
              cbn [String.length] in *; lia).
        rewrite Hcl at 1.
        replace (tok ++ String " " post) with ((tok ++ " ") ++ post)
          by (rewrite append_assoc; reflexivity).
        apply substring_skip.
  - destruct Hc as [_ Hi]. rewrite Hi. cbn [Z.eqb negb]. split.
    + reflexivity.
    + unfold slice. pose proof (len_nonneg cl).
      destruct (len cl <? 2) eqn:Hshort.
      * apply Z.ltb_lt in Hshort.
        replace ((0 <=? 0) && (0 <=? len cl - 2) && (len cl - 2 <=? len cl))
          with false; [reflexivity|].
        symmetry. apply andb_false_iff. left. apply andb_false_iff.
        right. apply Z.leb_gt. lia.
      * apply Z.ltb_ge in Hshort.
        replace ((0 <=? 0) && (0 <=? len cl - 2) && (len cl - 2 <=? len cl))
          with true
          by (symmetry; rewrite !andb_true_iff, !Z.leb_le; lia).
        cbn [go_bind].
        replace (Z.to_nat (len cl - 2 - 0)) with (String.length cl - 2)%nat
          by (unfold len in *; lia).
        reflexivity.
Qed.

(** X22. On an ASCII line ending in CRLF the verb comes out in upper
    case whatever the case it was sent in: it holds no lower-case letter,
    no space, and as many bytes as the text before the first space. *)
Theorem verb_of_ascii_line_is_upper_case (body : string) :
  isASCII body = true ->
  exists verb,
    CmdLine.Verb (body ++ CRLF) = Ok verb /\
    allBytes (fun c => negb (isLowerByte c)) verb = true /\
    has_byte " " verb = false /\
    len verb = len (fst (cut " " body)).
Proof.
  intros Hascii. destruct (Verb_Arg_of_body body) as [Hv _].
  eexists. split; [exact Hv|].
  assert (Htok : isASCII (fst (cut " " body)) = true).
  { pose proof (Index_cut " " body) as Hc.
    destruct (cut " " body) as [tok [post|]]; cbn [fst snd] in *.
    - destruct Hc as [Hb _]. rewrite Hb in Hascii. unfold isASCII in *.
      rewrite allBytes_append in Hascii.
      now apply andb_true_iff in Hascii.
    - destruct Hc as [-> _]. exact Hascii. }
  unfold strings.ToUpper. rewrite Htok.
  destruct (mapBytes_upper_facts (fst (cut " " body))) as (H1 & H2 & H3).
  rewrite H2, cut_before_has_no_byte. auto.
Qed.

(** X23. On an ASCII line ending in CRLF the argument is the text after
    the first space with nothing but white space taken off its end: what
    is taken off is all tabs, line feeds, vertical tabs, form feeds,
    carriage returns and spaces, what is kept does not end in one, and
    white space at the start of the argument is kept. *)
Theorem arg_of_ascii_line_is_right_trimmed (body : string) :
  isASCII body = true ->
  match snd (cut " " body) with
  | Some rest =>
      exists arg ws,
        CmdLine.Arg (body ++ CRLF) = Ok arg /\
        rest = arg ++ ws /\
        allBytes isSpaceByte ws = true /\
        (arg = EmptyString \/
         exists front c,
           arg = front ++ String c EmptyString /\ isSpaceByte c = false)
  | None => CmdLine.Arg (body ++ CRLF) = Ok EmptyString
  end.
Proof.
  intros Hascii. destruct (Verb_Arg_of_body body) as [_ Ha].
  pose proof (Index_cut " " body) as Hc.
  destruct (cut " " body) as [tok [rest|]]; cbn [fst snd] in *;
    [|exact Ha].
  destruct Hc as [Hb _].
  assert (Hrest : isASCII rest = true).
  { rewrite Hb in Hascii. unfold isASCII in *.
    rewrite allBytes_append in Hascii.
    apply andb_true_iff in Hascii. destruct Hascii as [_ H].
    unfold allBytes in *. cbn [list_ascii_of_string forallb] in H.
    now apply andb_true_iff in H. }
  destruct (TrimRightSpace_spec rest)
    as (kept & ws & Hsplit & Hws & [[Hk Ht] | (front & c & Hk & Ht)]).
  - exists EmptyString, ws. rewrite Ha, Ht. subst kept.
    repeat split; auto.
  - assert (Hc : (128 <=? byteval c) = false).
    { rewrite Hsplit, Hk in Hrest. unfold isASCII in Hrest.
      rewrite !allBytes_append in Hrest.
      apply andb_true_iff in Hrest. destruct Hrest as [Hrest _].
      apply andb_true_iff in Hrest. destruct Hrest as [_ Hrest].
      unfold allBytes in Hrest. cbn [list_ascii_of_string forallb] in Hrest.
      rewrite andb_true_r in Hrest. apply Z.ltb_lt in Hrest.
      apply Z.leb_gt. exact Hrest. }
    rewrite Hc in Ht. destruct Ht as [Hsp Ht].
    exists kept, ws. rewrite Ha, Ht.
    repeat split; auto. right. exists front, c. auto.
Qed.

End LexerEdges.

(** ** The default envelope *)

(** X24. The default envelope keeps every recipient it is given, in the
    order given and with repetitions, after those it already held, and
    never refuses one. *)
Theorem basic_envelope_appends_in_order (e : BasicEnvelope)
  (rs : list MailAddress) :
  addRecipients e rs =
  ({| rcpts := (rcpts e ++ rs)%list |}, repeat None (List.length rs)).
Proof.
  revert e. induction rs as [|r rs IH]; intros e.
  - cbn. rewrite app_nil_r. destruct e; reflexivity.
  - cbn [addRecipients BasicEnvelopeMethods.AddRecipient].
    rewrite IH. cbn [rcpts List.length repeat].
    rewrite <- app_assoc. reflexivity.
Qed.

(** ** A run of RCPT commands *)

Section Transaction.
Context {P : Platform}.
Variable World : Type.
Variable Envelope : Type.
Variable AddRecipient :
  Envelope -> MailAddress -> World -> option error * World.

Lemma TrimRightSpace_keeps (s : string) (c : ascii) :
  (128 <=? byteval c) = false ->
  isSpaceByte c = false ->
  strings.TrimRightSpace (s ++ String c EmptyString) =
  s ++ String c EmptyString.
Proof.
  intros Hhigh Hsp. unfold strings.TrimRightSpace.
  rewrite reverse_append.
  change (reverse (String c EmptyString)) with (String c EmptyString).
  cbn [append strings.trimRightScan]. rewrite Hhigh, Hsp.
  change (String c (reverse s))
    with (reverse (String c EmptyString) ++ reverse s).
  rewrite <- reverse_append. apply reverse_involutive.
Qed.

Lemma rcptLine_parts (a : string) :
  CmdLine.checkValid (rcptLine a) = Ok None /\
  CmdLine.Verb (rcptLine a) = Ok "RCPT" /\
  CmdLine.Arg (rcptLine a) = Ok ("TO:<" ++ a ++ ">").
Proof.
  unfold rcptLine.
  pose proof (checkValid_of_body ("RCPT TO:<" ++ a ++ ">")) as Hc.
  pose proof (Verb_Arg_of_body ("RCPT TO:<" ++ a ++ ">")) as [Hv Ha].
  cbn [append cut Ascii.eqb Bool.eqb fst snd] in Hc, Hv, Ha.
  assert (Ht : strings.TrimRightSpace (String "T" (String "O" (String ":"
                 (String "<" (a ++ ">"))))) = "TO:<" ++ a ++ ">").
  { change (String "T" (String "O" (String ":" (String "<" (a ++ ">")))))
      with (("TO:<" ++ a) ++ ">").
    rewrite TrimRightSpace_keeps by reflexivity.
    now rewrite append_assoc. }
  rewrite Ht in Ha, Hc. cbn [append].
  split; [|split].
  - rewrite Hc. reflexivity.
  - rewrite Hv. reflexivity.
  - exact Ha.
Qed.

(** X25. A run of RCPT commands with an envelope active, each with a
    non-empty address in brackets that holds no [>] and no LF: the
    addresses reach the envelope's [AddRecipient] one by one in the order
    sent, each on the world the one before left, and each command is
    answered by its own outcome, 250 or 550 with the envelope's message.
    A refusal does not end the transaction: the envelope stays and the
    commands after it are still carried out. *)
Theorem rcpt_run_is_delivered_in_order (rs : list string) :
  forall (st : state World Envelope) (e : Envelope),
    env (sess st) = Some e ->
    forallb plainAddress rs = true ->
    serveLoop AddRecipient (map rcptLine rs) st =
    (Ok tt,
     {| sess := sess st;
        world := fst (deliver AddRecipient e rs (world st));
        wire := wire st ++ snd (deliver AddRecipient e rs (world st)) |}).
Proof.
  induction rs as [|a rs IH]; intros st e He Hok.
  - cbn. rewrite append_nil_r. destruct st; reflexivity.
  - cbn [forallb] in Hok. apply andb_true_iff in Hok.
    destruct Hok as [Ha Hok]. unfold plainAddress in Ha.
    apply andb_true_iff in Ha. destruct Ha as [Ha Hlf].
    apply andb_true_iff in Ha. destruct Ha as [Hne Hgt].
    apply negb_true_iff in Hne, Hgt, Hlf.
    apply String.eqb_neq in Hne.
    destruct (rcptLine_parts a) as (Hvalid & Hverb & Harg).
    assert (Hm : FindStringSubmatch rcptToRE ("TO:<" ++ a ++ ">") =
                 ["TO:<" ++ a ++ ">"; a]).
    { apply (FindStringSubmatch_accepts rcptToRE "TO:" EmptyString a
               EmptyString); auto. }
    cbn [map deliver].
    destruct (AddRecipient e a (world st)) as [err w1] eqn:Hadd.
    rewrite (serveLoop_continue World Envelope AddRecipient st _ _ _
               (serveLine_rcpt_matched World Envelope AddRecipient st _
                  _ _ _ e err w1 He Hvalid Hverb Harg Hm Hadd)).
    match goal with
    | |- serveLoop _ _ ?st1 = _ => rewrite (IH st1 e He Hok)
    end.
    cbn [sess world wire].
    destruct (deliver AddRecipient e rs w1) as [w2 out].
    cbn [fst snd]. rewrite !append_assoc. reflexivity.
Qed.

End Transaction.

(** ** The properties at work on the demonstration caller *)

Lemma nested_mail_from_is_rejected_witness :
  let st := demoAfter (Some acceptAll)
              (ln "MAIL FROM:<a@b.com>" ++ ln "RCPT TO:<c@d.com>") in
  env (sess st) = Some 0%nat /\
  world st = [{| rcpts := ["c@d.com"] |}] /\
  demoTurn (ln "MAIL FROM:<x@y.org>") st =
  (Ok Continue, respond st (ln "503 5.5.1 Error: nested MAIL command")).
Proof.
  cbv zeta. split; [reflexivity|]. split; [reflexivity|].
  apply (proj2 (@nested_mail_from_is_rejected ascii_platform heap ptr
                  heapAddRecipient
                  (demoAfter (Some acceptAll)
                     (ln "MAIL FROM:<a@b.com>" ++ ln "RCPT TO:<c@d.com>"))
                  0%nat eq_refl))
    with (arg := "FROM:<x@y.org>"); try reflexivity.
  vm_compute. discriminate.
Defined.

Lemma rcpt_without_mail_is_rejected_witness :
  env (sess (demoState (Some acceptAll))) = None /\
  demoTurn (ln "RCPT TO:<x@y.com>") (demoState (Some acceptAll)) =
  (Ok Continue,
   respond (demoState (Some acceptAll))
     (ln "503 5.5.1 Error: need MAIL command")).
Proof.
  split; [reflexivity|].
  apply (proj1 (proj2 (@rcpt_without_mail_is_rejected ascii_platform heap
                         ptr heapAddRecipient
                         (demoState (Some acceptAll)) eq_refl)));
    reflexivity.
Defined.

Lemma mail_from_without_hook_is_451_witness :
  let st := demoAfter None (ln "EHLO client.example") in
  @reachable ascii_platform heap ptr heapAddRecipient (demoServer None) st
  /\ demoTurn (ln "MAIL FROM:<a@b.com>") st =
  (Ok Continue, respond st (ln "451 Server.OnNewMail not configured")).
Proof.
  cbv zeta.
  assert (R : @reachable ascii_platform heap ptr heapAddRecipient
                (demoServer None)
                (demoAfter None (ln "EHLO client.example"))).
  { apply reach_turn
      with (st := demoState None) (line := ln "EHLO client.example").
    - apply reach_new.
    - reflexivity. }
  split; [exact R|].
  apply (@mail_from_without_hook_is_451 ascii_platform heap ptr
           heapAddRecipient (demoServer None) _ _ "FROM:<a@b.com>");
    try reflexivity.
  - exact R.
  - vm_compute. discriminate.
Defined.

Lemma rejected_mail_from_is_silent_witness :
  demoTurn (ln "MAIL FROM:<a@b.com>") (demoState (Some rejectAll)) =
  (Ok Continue, demoState (Some rejectAll)).
Proof.
  apply (@rejected_mail_from_is_silent ascii_platform heap ptr
           heapAddRecipient (demoState (Some rejectAll)) _
           "FROM:<a@b.com>" "FROM:<a@b.com>" "a@b.com" rejectAll
           None "sender refused" []);
    reflexivity.
Defined.

Lemma hello_keeps_envelope_witness :
  let st := demoAfter (Some acceptAll) (ln "MAIL FROM:<a@b.com>") in
  env (sess st) = Some 0%nat /\
  exists host st',
    CmdLine.Arg (P := ascii_platform) (ln "EHLO client.example") = Ok host /\
    demoTurn (ln "EHLO client.example") st = (Ok Continue, st') /\
    env (sess st') = env (sess st) /\
    helloType (sess st') = "EHLO" /\
    helloHost (sess st') = host /\
    srv (sess st') = srv (sess st) /\
    remote (sess st') = remote (sess st) /\
    world st' = world st.
Proof.
  cbv zeta. split; [reflexivity|].
  apply (proj2 (@hello_keeps_envelope ascii_platform heap ptr
                  heapAddRecipient _)).
  - reflexivity.
  - reflexivity.
  - cbn. auto.
Defined.

(** C4, as the specification words it, fails: the response to
    [EHLO client.example] has six lines, the host name line included, and
    its fifth line starts with [250-]. *)
Lemma hello_response_is_not_five_lines :
  let resp :=
    wire (snd (@handleHello ascii_platform heap ptr "EHLO" "client.example"
                 (demoState None))) in
  wireLines resp =
    [ "250-mx.example"; "250-PIPELINING"; "250-SIZE 10240000";
      "250-ENHANCEDSTATUSCODES"; "250-8BITMIME"; "250 DSN" ] /\
  ~ fiveLineCapability resp.
Proof.
  cbv zeta. split; [reflexivity|].
  intros (l1 & l2 & l3 & l4 & l5 & H & _).
  vm_compute in H. discriminate.
Qed.

(** C3: what the code does on a RCPT whose argument is not [To:<...>],
    with an envelope active.  The 501 is sent, no recipient is added and
    the envelope stays, but the session panics on [m[1]] instead of going
    on: the NOOP and the QUIT that follow are never answered. *)
Theorem rcpt_bad_syntax_panics_after_501 :
  let result :=
    demoServe (ln "MAIL FROM:<a@b.com>" ++ ln "RCPT TO:c@d.com" ++
               ln "NOOP" ++ ln "QUIT")
      (demoState (Some acceptAll)) in
  fst result = Panic IndexOutOfRange /\
  wire (snd result) =
    ln "220 mx.example ESMTP gosmtpd" ++ ln "250 2.1.0 Ok" ++
    ln "501 5.1.7 Bad sender address syntax" /\
  env (sess (snd result)) = Some 0%nat /\
  world (snd result) = [{| rcpts := [] |}].
Proof.
  cbv zeta. repeat split.
Qed.

(** ** The further properties at work on the demonstration caller *)

Lemma unterminated_line_is_answered_500_witness :
  demoTurn (String.append "NOOP" (String LF EmptyString))
    (demoState None) =
  (Ok Continue,
   respond (demoState None) (ln "500 line doesn't end in \r\n")).
Proof.
  apply (@unterminated_line_is_answered_500 ascii_platform heap ptr
           heapAddRecipient).
  apply not_HasSuffix_CRLF. reflexivity.
Defined.

Lemma verb_with_forbidden_argument_is_not_run_witness :
  @serveLoop ascii_platform heap ptr heapAddRecipient
    [ln "QUIT now"; ln "NOOP"] (demoState None) =
  @serveLoop ascii_platform heap ptr heapAddRecipient
    [ln "NOOP"] (respond (demoState None) (ln "500 unexpected argument")).
Proof.
  apply (@verb_with_forbidden_argument_is_not_run ascii_platform heap ptr
           heapAddRecipient (demoState None) (ln "QUIT now") "QUIT" "now").
  - now exists "QUIT now".
  - reflexivity.
  - cbn. auto.
  - reflexivity.
  - discriminate.
Defined.

Lemma quit_ends_the_loop_witness :
  @serveLoop ascii_platform heap ptr heapAddRecipient
    [ln "quit"; ln "NOOP"] (demoState None) =
  (Ok tt, respond (demoState None) (ln "221 2.0.0 Bye")).
Proof.
  apply (@quit_ends_the_loop ascii_platform heap ptr heapAddRecipient);
    reflexivity.
Defined.

Lemma rset_reopens_the_transaction_witness :
  let st := demoAfter (Some acceptAll) (ln "MAIL FROM:<a@b.com>") in
  env (sess st) = Some 0%nat /\
  env (sess (snd (@serveLoop ascii_platform heap ptr heapAddRecipient
                    [ln "RSET"; ln "MAIL FROM:<c@d.org>"] st)))
  = Some 1%nat.
Proof.
  cbv zeta. split; [reflexivity|].
  exact (f_equal (fun r => env (sess (snd r)))
           (proj2 (@rset_reopens_the_transaction ascii_platform heap ptr
                     heapAddRecipient
                     (demoAfter (Some acceptAll) (ln "MAIL FROM:<a@b.com>"))
                     (ln "RSET") (ln "MAIL FROM:<c@d.org>")
                     "FROM:<c@d.org>" "FROM:<c@d.org>" "c@d.org"
                     acceptAll (Some 1%nat)
                     [{| rcpts := [] |}; {| rcpts := [] |}]
                     eq_refl eq_refl eq_refl eq_refl eq_refl eq_refl
                     eq_refl eq_refl))).
Defined.

Lemma other_verbs_change_nothing_witness :
  demoTurn (ln "VRFY postmaster") (demoState None) =
  (Ok Continue,
   respond (demoState None)
     (ln "502 5.5.2 Error: command not recognized")).
Proof.
  apply (proj1 (@other_verbs_change_nothing ascii_platform heap ptr
                  heapAddRecipient (demoState None) (ln "VRFY postmaster")
                  "VRFY" [] eq_refl eq_refl
                  ltac:(cbn; intuition discriminate))).
Defined.

Lemma mail_with_bad_syntax_is_answered_501_witness :
  demoTurn (ln "MAIL  FROM:<a@b.com>") (demoState (Some acceptAll)) =
  (Ok Continue,
   respond (demoState (Some acceptAll))
     (ln "501 5.1.7 Bad sender address syntax")).
Proof.
  apply (@mail_with_bad_syntax_is_answered_501 ascii_platform heap ptr
           heapAddRecipient _ _ " FROM:<a@b.com>");
    reflexivity.
Defined.

Lemma accepted_mail_from_opens_the_envelope_witness :
  env (sess (snd (demoTurn (ln "MAIL FROM:<>")
                    (demoState (Some acceptAll))))) = Some 0%nat.
Proof.
  exact (f_equal (fun r => env (sess (snd r)))
           (@accepted_mail_from_opens_the_envelope ascii_platform heap ptr
              heapAddRecipient (demoState (Some acceptAll))
              (ln "MAIL FROM:<>") "FROM:<>" "FROM:<>" EmptyString
              acceptAll (Some 0%nat) [{| rcpts := [] |}]
              eq_refl eq_refl eq_refl eq_refl eq_refl eq_refl eq_refl)).
Defined.

Lemma rcpt_is_handed_to_the_envelope_witness :
  let st := demoAfter (Some acceptAll) (ln "MAIL FROM:<a@b.com>") in
  world (snd (demoTurn (ln "rcpt to: <c@d.com> NOTIFY=NEVER") st)) =
  [{| rcpts := ["c@d.com"] |}].
Proof.
  cbv zeta.
  exact (f_equal (fun r => world (snd r))
           (@rcpt_is_handed_to_the_envelope ascii_platform heap ptr
              heapAddRecipient
              (demoAfter (Some acceptAll) (ln "MAIL FROM:<a@b.com>"))
              (ln "rcpt to: <c@d.com> NOTIFY=NEVER")
              "to: <c@d.com> NOTIFY=NEVER" "to: <c@d.com>" "c@d.com"
              0%nat None [{| rcpts := ["c@d.com"] |}]
              eq_refl eq_refl eq_refl eq_refl eq_refl eq_refl)).
Defined.

Lemma turn_panics_only_on_unmatched_rcpt_witness :
  let st := demoAfter (Some acceptAll) (ln "MAIL FROM:<a@b.com>") in
  demoTurn (ln "RCPT TO:<>") st =
  (Panic IndexOutOfRange,
   respond st (ln "501 5.1.7 Bad sender address syntax")).
Proof.
  cbv zeta.
  apply (proj2 (@turn_panics_only_on_unmatched_rcpt ascii_platform heap
                  ptr heapAddRecipient _ _ _ _)).
  repeat split.
  - exists 0%nat. reflexivity.
  - exists "TO:<>". split; reflexivity.
Defined.

Lemma serve_without_hook_never_panics_witness :
  fst (demoServe (ln "MAIL FROM:<a@b.com>" ++ ln "RCPT TO:c@d.com")
         (demoState None)) = Ok tt.
Proof.
  apply (proj1 (@serve_without_hook_never_panics ascii_platform heap ptr
                  heapAddRecipient (demoState None) _ eq_refl eq_refl)).
Defined.

Lemma turn_changes_only_what_its_verb_owns_witness :
  let st := demoAfter (Some acceptAll) (ln "MAIL FROM:<a@b.com>") in
  let st' := snd (demoTurn (ln "DATA") st) in
  demoTurn (ln "DATA") st = (Ok Continue, st') /\
  world st' = world st /\ env (sess st') = env (sess st).
Proof.
  cbv zeta. split; [reflexivity|].
  destruct (@turn_changes_only_what_its_verb_owns ascii_platform heap ptr
              heapAddRecipient
              (demoAfter (Some acceptAll) (ln "MAIL FROM:<a@b.com>"))
              (snd (demoTurn (ln "DATA")
                      (demoAfter (Some acceptAll)
                         (ln "MAIL FROM:<a@b.com>"))))
              (ln "DATA") (Ok Continue) eq_refl)
    as (_ & _ & _ & Hw & He & _).
  split; [apply Hw | apply He]; vm_compute; discriminate.
Defined.

Lemma refused_connection_gets_nothing_witness :
  demoServe (ln "EHLO client.example") gatedState = (Ok tt, gatedState).
Proof.
  apply (@refused_connection_gets_nothing ascii_platform heap ptr
           heapAddRecipient gatedState _ refuseConnection "not welcome" []);
    reflexivity.
Defined.

Lemma banner_comes_first_witness :
  exists rest,
    wire (snd (demoServe (ln "NOOP") (demoState None))) =
    ln "220 mx.example ESMTP gosmtpd" ++ rest.
Proof.
  apply (@banner_comes_first ascii_platform heap ptr heapAddRecipient
           (demoState None) (ln "NOOP") eq_refl).
Defined.

Lemma unterminated_tail_is_ignored_witness :
  demoServe (ln "NOOP" ++ "QUIT") (demoState None) =
  demoServe (ln "NOOP") (demoState None).
Proof.
  apply (@unterminated_tail_is_ignored ascii_platform heap ptr
           heapAddRecipient (demoState None) (ln "NOOP") "QUIT" eq_refl).
Defined.

Lemma overlong_first_line_ends_the_session_witness :
  demoServe (fill 4096 "a" ++ ln "" ++ ln "QUIT") (demoState None) =
  demoServe EmptyString (demoState None).
Proof.
  apply (@overlong_first_line_ends_the_session ascii_platform heap ptr
           heapAddRecipient (demoState None) (fill 4096 "a")).
  - vm_compute. reflexivity.
  - vm_compute. reflexivity.
Defined.

Lemma complete_lines_are_read_back_witness :
  demoServe (String.concat EmptyString [ln "EHLO h"; ln "QUIT"])
    (demoState None) =
  @serveLoop ascii_platform heap ptr heapAddRecipient
    [ln "EHLO h"; ln "QUIT"]
    (respond (demoState None) (ln "220 mx.example ESMTP gosmtpd")).
Proof.
  apply (@complete_lines_are_read_back ascii_platform heap ptr
           heapAddRecipient (demoState None));
    reflexivity.
Defined.

Lemma pattern_accepts_bracketed_address_witness :
  FindStringSubmatch mailFromRE "FrOm: <> SIZE=1024" = ["FrOm: <>"; EmptyString].
Proof.
  apply (pattern_accepts_bracketed_address mailFromRE "FrOm:" " "
           EmptyString " SIZE=1024");
    try reflexivity.
  discriminate.
Defined.

Lemma pattern_match_is_a_bracketed_address_witness :
  exists kw ws rest,
    "To:<>>, <x>" = "To:<>>" ++ rest /\
    "To:<>>" = kw ++ ws ++ String "<" (">" ++ String ">" EmptyString) /\
    mapBytes lowerByte kw = keyword rcptToRE /\
    allBytes isReSpace ws = true /\
    has_byte LF ">" = false /\
    (groupMayBeEmpty rcptToRE = true -> has_byte ">" ">" = false) /\
    (groupMayBeEmpty rcptToRE = false -> ">" <> EmptyString).
Proof.
  apply (pattern_match_is_a_bracketed_address rcptToRE "To:<>>, <x>").
  reflexivity.
Defined.

Lemma verb_of_ascii_line_is_upper_case_witness :
  exists verb,
    CmdLine.Verb (P := ascii_platform) ("eHlo client.example" ++ CRLF)
      = Ok verb /\
    allBytes (fun c => negb (isLowerByte c)) verb = true /\
    has_byte " " verb = false /\
    len verb = len (fst (cut " " "eHlo client.example")).
Proof.
  apply (@verb_of_ascii_line_is_upper_case ascii_platform
           "eHlo client.example").
  reflexivity.
Defined.

Lemma arg_of_ascii_line_is_right_trimmed_witness :
  exists arg ws,
    CmdLine.Arg (P := ascii_platform) ("MAIL  FROM:<a@b.com>  " ++ CRLF)
      = Ok arg /\
    " FROM:<a@b.com>  " = arg ++ ws /\
    allBytes isSpaceByte ws = true /\
    (arg = EmptyString \/
     exists front c,
       arg = front ++ String c EmptyString /\ isSpaceByte c = false).
Proof.
  apply (@arg_of_ascii_line_is_right_trimmed ascii_platform
           "MAIL  FROM:<a@b.com>  ").
  reflexivity.
Defined.

Lemma rcpt_run_is_delivered_in_order_witness :
  let st := demoAfter (Some acceptAll) (ln "MAIL FROM:<a@b.com>") in
  world (snd (@serveLoop ascii_platform heap ptr heapAddRecipient
                (map rcptLine ["c@d.com"; "e@f.org"; "c@d.com"]) st)) =
  [{| rcpts := ["c@d.com"; "e@f.org"; "c@d.com"] |}].
Proof.
  cbv zeta.
  exact (f_equal (fun r => world (snd r))
           (@rcpt_run_is_delivered_in_order ascii_platform heap ptr
              heapAddRecipient ["c@d.com"; "e@f.org"; "c@d.com"]
              (demoAfter (Some acceptAll) (ln "MAIL FROM:<a@b.com>"))
              0%nat eq_refl eq_refl)).
Defined.

Lemma accepted_mail_without_envelope_opens_nothing_witness :
  @serveLoop ascii_platform heap ptr heapAddRecipient
    [ln "MAIL FROM:<a@b.com>"; ln "RCPT TO:<c@d.com>"]
    (demoState (Some acceptWithoutEnvelope)) =
  (Ok tt,
   respond (demoState (Some acceptWithoutEnvelope))
     (ln "250 2.1.0 Ok" ++ ln "503 5.5.1 Error: need MAIL command")).
Proof.
  apply (@accepted_mail_without_envelope_opens_nothing ascii_platform heap
           ptr heapAddRecipient (demoState (Some acceptWithoutEnvelope))
           (ln "MAIL FROM:<a@b.com>") (ln "RCPT TO:<c@d.com>")
           "FROM:<a@b.com>" "FROM:<a@b.com>" "a@b.com"
           acceptWithoutEnvelope []);
    reflexivity.
Defined.

(** ** The scenarios of the specification, evaluated *)

Example end_to_end_session :
  demoServe (ln "EHLO h" ++ ln "MAIL FROM:<a@b.com>" ++
             ln "RCPT TO:<c@d.com>" ++ ln "QUIT")
    (demoState (Some acceptAll)) =
  (Ok tt,
   {| sess := {| srv := demoServer (Some acceptAll);
                 remote := "192.0.2.1:4000";
                 env := Some 0%nat;
                 helloType := "EHLO"; helloHost := "h" |};
      world := [{| rcpts := ["c@d.com"] |}];
      wire := ln "220 mx.example ESMTP gosmtpd" ++
              ln "250-mx.example" ++ ln "250-PIPELINING" ++
              ln "250-SIZE 10240000" ++ ln "250-ENHANCEDSTATUSCODES" ++
              ln "250-8BITMIME" ++ ln "250 DSN" ++
              ln "250 2.1.0 Ok" ++ ln "250 2.1.0 Ok" ++
              ln "221 2.0.0 Bye" |}).
Proof. reflexivity. Qed.

Example mail_from_twice :
  wire (demoAfter (Some acceptAll)
          (ln "MAIL FROM:<a@b.com>" ++ ln "MAIL FROM:<a@b.com>")) =
  ln "250 2.1.0 Ok" ++ ln "503 5.5.1 Error: nested MAIL command".
Proof. reflexivity. Qed.

Example rcpt_before_mail :
  demoAfter (Some acceptAll) (ln "RCPT TO:<x@y.com>") =
  respond (demoState (Some acceptAll))
    (ln "503 5.5.1 Error: need MAIL command").
Proof. reflexivity. Qed.

Example domain_examples :
  @AddrString.Hostname ascii_platform "user@EXAMPLE.com" = Ok "example.com"
  /\ @AddrString.Hostname ascii_platform "no-at-sign" = Ok EmptyString.
Proof. split; reflexivity. Qed.

Example framing_and_arguments :
  @CmdLine.checkValid ascii_platform "NOOP"
    = Ok (Some "line doesn't end in \r\n")
  /\ @CmdLine.checkValid ascii_platform (ln "data now")
    = Ok (Some "unexpected argument")
  /\ @CmdLine.checkValid ascii_platform (ln "NOOP now") = Ok None.
Proof. repeat split. Qed.

Example rejected_commands_leave_the_loop_running :
  wire (demoAfter None
          (ln "MAIL FROM:a@b.com" ++ ln "MAIL FROM:<>" ++ ln "BDAT 1" ++
           ln "DATA" ++ ln "RSET" ++ "NOOP")) =
  ln "501 5.1.7 Bad sender address syntax" ++
  ln "451 Server.OnNewMail not configured" ++
  ln "502 5.5.2 Error: command not recognized" ++
  ln "354 Go ahead" ++ ln "250 2.0.0 OK".
Proof. reflexivity. Qed.
